(** * Configuration resolution and task/operation dispatch of the YOLO facade

    A shallow embedding of
    - [ultralytics/yolo/configs/__init__.py] ([get_config],
      [check_config_mismatch], [entrypoint], [copy_default_config]) and
    - [ultralytics/yolo/engine/model.py] (class [YOLO]),
    followed by the properties of that code.

    Python dictionaries with string keys are finite maps ([gmap string value]),
    Python sets are [gset string]; exceptions, [sys.exit] and the calls handed
    to external collaborators (logger, trainers, validators, task modules) are
    recorded by a small writer/error monad [M]. *)

From Stdlib Require Import ZArith QArith String Ascii List.
From stdpp Require Import base option list gmap sets strings.

Open Scope string_scope.

Set Warnings "-register-all".

(** ** Python values and string primitives *)

Module Py.

(** Values that a YAML document, a keyword argument or a command-line token
    can carry.  A float is kept as its IEEE-754 binary64 bit pattern. *)
Inductive value : Type :=
| VNone
| VBool (b : bool)
| VInt (n : Z)
| VFloat (bits : Z)
| VStr (s : string)
| VSeq (xs : list value)
| VMap (kvs : list (string * value)).

(** [bool(v)]: the truth value Python gives to [v] in [if v] / [not v]. *)
Definition truthy (v : value) : bool :=
  match v with
  | VNone => false
  | VBool b => b
  | VInt n => negb (n =? 0)%Z
  | VFloat bits => negb ((bits =? 0)%Z || (bits =? 2 ^ 63)%Z)
  | VStr s => negb (String.eqb s "")
  | VSeq xs => match xs with [] => false | _ :: _ => true end
  | VMap kvs => match kvs with [] => false | _ :: _ => true end
  end.

(** [v is False] *)
Definition is_False (v : value) : bool :=
  match v with
  | VBool false => true
  | _ => false
  end.

(** [d.get(k)] on a string-keyed dictionary: [None] when the key is absent. *)
Definition dict_get (d : gmap string value) (k : string) : value :=
  default VNone (d !! k).

(** [str.lower] on one character; only [A]..[Z] have a lower-case form among
    the characters that can occur in the words this program compares with. *)
Definition lower_char (c : ascii) : ascii :=
  let n := nat_of_ascii c in
  if (65 <=? n)%nat && (n <=? 90)%nat then ascii_of_nat (n + 32) else c.

Fixpoint lower (s : string) : string :=
  match s with
  | EmptyString => EmptyString
  | String c s' => String (lower_char c) (lower s')
  end.

(** [c in s] for a one-character string [c]. *)
Fixpoint contains (c : ascii) (s : string) : bool :=
  match s with
  | EmptyString => false
  | String c' s' => Ascii.eqb c' c || contains c s'
  end.

(** [s.startswith(p)] *)
Definition startswith (s p : string) : bool := String.prefix p s.

(** [s.split(sep)] for a one-character separator: never empty, and
    [''.split('=') == ['']]. *)
Fixpoint split (sep : ascii) (s : string) : list string :=
  match s with
  | EmptyString => [EmptyString]
  | String c s' =>
      if Ascii.eqb c sep then EmptyString :: split sep s'
      else match split sep s' with
           | [] => [String c EmptyString]
           | h :: t => String c h :: t
           end
  end.

(** [xs[-1]] on a list known to be non-empty ([d] is never returned for the
    results of [split]). *)
Definition last_item {A} (xs : list A) (d : A) : A := List.last xs d.

(** [s.replace(old, new)] for a non-empty [old]: occurrences are replaced
    left to right without overlap.  [skip] counts the characters of an
    occurrence that were already consumed. *)
Fixpoint replace_from (old new : string) (skip : nat) (s : string) : string :=
  match s with
  | EmptyString => EmptyString
  | String c s' =>
      match skip with
      | S k => replace_from old new k s'
      | O =>
          if String.prefix old s
          then new ++ replace_from old new (String.length old - 1) s'
          else String c (replace_from old new 0 s')
      end
  end.

Definition replace (old new s : string) : string := replace_from old new 0 s.

(** [c] is one of [A]..[Z]. *)
Definition is_upper (c : ascii) : Prop :=
  (65 <= nat_of_ascii c <= 90)%nat.

(** The same character, or the two cases of one ASCII letter. *)
Definition same_letter (c d : ascii) : Prop :=
  c = d \/
  (is_upper c /\ nat_of_ascii d = nat_of_ascii c + 32)%nat \/
  (is_upper d /\ nat_of_ascii c = nat_of_ascii d + 32)%nat.

(** Case variants: two strings that differ at most in the case of their
    ASCII letters. *)
Inductive same_letters : string -> string -> Prop :=
| same_nil : same_letters EmptyString EmptyString
| same_cons c d s t :
    same_letter c d -> same_letters s t ->
    same_letters (String c s) (String d t).

End Py.

Export Py.

Abbreviation dict := (gmap string value).

(** ** Effects: log lines, external calls, exceptions and [sys.exit] *)

Module Eff.

(** Text handed to [LOGGER.info]; the f-strings are kept by their parts. *)
Inductive message : Type :=
| MsgHelp                                          (* CLI_HELP_MSG *)
| MsgVersion (v : string)                          (* __version__ *)
| MsgInvalidKey (option : string) (similar : list string)
| MsgOverriding (default_cfg custom_cfg : string)
| MsgCopied (src dst : string)
| MsgCfgPassed (cfg : value)
| MsgNotInitialized.                                (* "model not initialized!" *)

(** The callable selected by the dispatcher for a (task, mode) pair. *)
Inductive operation : Type :=
| ModuleOp (module mode : string)                  (* yolo.v8.<module>.<mode> *)
| ExporterExport.                                  (* yolo.engine.exporter.export *)

(** A model object held by the facade. *)
Inductive net : Type :=
| Built (model_class : string) (cfg : value)       (* ModelClass(cfg) *)
| Loaded (weights : string).                       (* attempt_load_weights(weights) *)

(** What the SyntaxError raised by the dispatcher is about. *)
Inductive syntax_msg : Type :=
| MissingEquals (arg : string) (default_value : value)
| NotAnArgument (arg : string)
| InvalidTask (task : value)
| InvalidMode (mode : value).

Inductive exn : Type :=
| SyntaxError (m : syntax_msg)
| Exception (text : string)
| ValueError
| KeyError (key : value)
| AttributeError (name : string)
| TypeError
| IndexError
| ExternalError (what : string).

(** Calls that leave this layer, in the order they are made. *)
Inductive event : Type :=
| LogInfo (m : message)
| Call (callee : string)                           (* checks.check_yolo(), print_settings() *)
| CopyFile (src dst : string)                      (* shutil.copy2 *)
| Invoke (op : operation) (cfg : dict)             (* func(cfg) *)
| TorchLoad (path : option string)                 (* torch.load(path, map_location="cpu") *)
| NewValidator (cls : string) (args : dict)
| RunValidator (cls : string) (model : net)
| NewTrainer (cls : string) (overrides : dict)
| TrainerLoadModel (cls : string)
| TrainerTrain (cls : string)
| ModelCall (model : net) (method : string) (arg : value)
| NewPredictor (cls : string) (overrides : dict)
| SetupPredictor (cls : string) (img_size : list value) (model : option net) (source : value)
| RunPredictor (cls : string).

Inductive outcome (A : Type) : Type :=
| Ok (a : A)
| Raise (e : exn)
| Exit.                                            (* sys.exit() *)

Arguments Ok {A} a.
Arguments Raise {A} e.
Arguments Exit {A}.

(** A computation: the events it produced and how it ended. *)
Record M (A : Type) : Type := Run { trace : list event; result : outcome A }.

Arguments Run {A} trace result.
Arguments trace {A} m.
Arguments result {A} m.

Definition ret {A} (a : A) : M A := Run [] (Ok a).

Definition bind {A B} (m : M A) (k : A -> M B) : M B :=
  match result m with
  | Ok a => let r := k a in Run (trace m ++ trace r) (result r)
  | Raise e => Run (trace m) (Raise e)
  | Exit => Run (trace m) Exit
  end.

Definition emit (e : event) : M unit := Run [e] (Ok tt).
Definition log (m : message) : M unit := emit (LogInfo m).
Definition raise {A} (e : exn) : M A := Run [] (Raise e).
Definition sys_exit {A} : M A := Run [] Exit.

(** An external function whose outcome is known but which emits nothing here. *)
Definition lift {A} (o : outcome A) : M A := Run [] o.

#[global] Instance M_ret : MRet M := @ret.
#[global] Instance M_bind : MBind M := fun A B k m => bind m k.

(** [for x in xs: body(x)] *)
Fixpoint for_each {A} (body : A -> M unit) (xs : list A) : M unit :=
  match xs with
  | [] => ret tt
  | x :: xs' => bind (body x) (fun _ => for_each body xs')
  end.

End Eff.

Export Eff.


(** ** External collaborators

    Everything this layer imports and calls but does not define: the YAML
    loader and the packaged defaults document, [difflib]'s similarity ratio,
    the checkpoint and model-definition loaders used by the facade, the
    evaluation of a dotted class name and the file copy. *)

(** [torch.load(path)]: the recorded training arguments are all this layer
    reads from a checkpoint. *)
Record checkpoint : Type := Checkpoint { train_args : dict }.

(** The model a trainer is given: weights restored from a checkpoint, or the
    facade's own model. *)
Inductive trainer_model : Type :=
| FromCheckpoint (c : checkpoint)              (* trainer.load_model(weights=ckpt) *)
| FromFacade (m : option net).

Record trainer_obj : Type := Trainer {
  trainer_class : string;
  trainer_overrides : dict;
  trainer_net : option trainer_model
}.

Record env : Type := Env {
  yaml_load : string -> outcome dict;          (* utils.yaml_load(path) *)
  DEFAULT_CONFIG : string;                     (* path of configs/default.yaml *)
  version : string;                            (* ultralytics.__version__ *)
  cwd : string;                                (* Path.cwd() *)
  ratio : string -> string -> Q;               (* SequenceMatcher(a, b).ratio(), as a fraction *)
  check_yaml : value -> outcome string;        (* utils.checks.check_yaml *)
  load_model_yaml : string -> outcome value;   (* open(cfg) + yaml.safe_load *)
  torch_load : option string -> outcome checkpoint;
  py_eval : string -> outcome string;          (* eval(name): the class so named, or the error *)
  copy2 : string -> string -> outcome unit     (* shutil.copy2(src, dst) *)
}.

(** ** ultralytics/yolo/configs/__init__.py *)

Module Configs.

Section WithEnv.

Variable E : env.

(** [config: Union[str, Path, Dict]] *)
Inductive config_src : Type :=
| FromFile (path : string)
| FromDict (d : dict).

(** Python's order on the [(score, x)] tuples that [get_close_matches]
    ranks: [ge_pair a b] is [a >= b]. *)
Definition ge_pair (a b : Q * string) : bool :=
  if Qeq_bool (fst a) (fst b)
  then negb (String.ltb (snd a) (snd b))
  else Qle_bool (fst b) (fst a).

Fixpoint insert_desc (a : Q * string) (l : list (Q * string)) : list (Q * string) :=
  match l with
  | [] => [a]
  | b :: l' => if ge_pair a b then a :: l else b :: insert_desc a l'
  end.

(** [heapq.nlargest(n, result)]: the [n] greatest, greatest first. *)
Definition nlargest (n : nat) (l : list (Q * string)) : list (Q * string) :=
  take n (foldr insert_desc [] l).

(** [difflib.get_close_matches(word, possibilities, n, cutoff)]: every
    possibility whose ratio against [word] reaches [cutoff] is scored, and
    the [n] best are returned without their scores.  Its two argument checks
    ([n > 0], [0 <= cutoff <= 1]) hold for the constants passed below. *)
Definition get_close_matches
    (word : string) (possibilities : list string) (n : nat) (cutoff : Q) : list string :=
  let result :=
    (fun x => (ratio E x word, x)) <$>
      filter (fun x => Is_true (Qle_bool cutoff (ratio E x word))) possibilities in
  snd <$> nlargest n result.

(** One line of the mismatch report. *)
Definition report (base : gset string) (option : string) : M unit :=
  log (MsgInvalidKey option (get_close_matches option (elements base) 3 (6 # 10))).

(** [mismatched = [x for x in custom if x not in base]] over the two key sets. *)
Definition mismatched_keys (base custom : gset string) : list string :=
  filter (fun x => x ∉ base) (elements custom).

Definition check_config_mismatch (base custom : dict) : M unit :=
  let base := dom base in
  let custom := dom custom in
  let mismatched := mismatched_keys base custom in
  for_each (report base) mismatched;;
  if bool_decide (mismatched = []) then mret tt else sys_exit.

Definition get_config (config : config_src) (overrides : dict) : M dict :=
  config ← match config with
           | FromFile path => lift (yaml_load E path)
           | FromDict d => mret d
           end;
  check_config_mismatch config overrides;;
  let merged := overrides ∪ config in          (* {**config, **overrides} *)
  mret merged.

(** [Path(p).name] for the text of a path: its final component, which is
    empty for the current directory [.]. *)
Definition path_name (p : string) : string :=
  if String.eqb p "." then "" else last_item (split "/" p) "".

(** The last character of [s] is [c]. *)
Fixpoint ends_with (c : ascii) (s : string) : bool :=
  match s with
  | EmptyString => false
  | String d EmptyString => Ascii.eqb d c
  | String _ s' => ends_with c s'
  end.

(** [dir / name] for a final component [name]: an empty name leaves the
    directory, and a directory that ends in the separator, as the root does,
    takes no second one. *)
Definition path_join (dir name : string) : string :=
  if String.eqb name "" then dir
  else if ends_with "/" dir then dir ++ name
  else dir ++ "/" ++ name.

(** The copy may fail (the destination being the source itself, for one);
    the notice is logged only after it returned. *)
Definition copy_default_config : M unit :=
  let new_file :=
    path_join (cwd E) (replace ".yaml" "_copy.yaml" (path_name (DEFAULT_CONFIG E))) in
  emit (CopyFile (DEFAULT_CONFIG E) new_file);;
  lift (copy2 E (DEFAULT_CONFIG E) new_file);;
  log (MsgCopied (DEFAULT_CONFIG E) new_file).

Definition tasks : list string := ["detect"; "segment"; "classify"].
Definition modes : list string := ["train"; "val"; "predict"; "export"].

(** The [special_modes] dictionary: [None] when [a] is not one of its keys. *)
Definition special_modes (a : string) : option (M unit) :=
  if String.eqb a "help" then Some (log MsgHelp)
  else if String.eqb a "checks" then Some (emit (Call "checks.check_yolo"))
  else if String.eqb a "version" then Some (log (MsgVersion (version E)))
  else if String.eqb a "settings" then Some (emit (Call "print_settings"))
  else if String.eqb a "copy-config" then Some copy_default_config
  else None.

(** How one turn of [for a in args] leaves the token classification. *)
Inductive flow : Type :=
| Next (overrides : dict)        (* fall through to the rest of the body *)
| Return.                        (* [return] after a special command *)

(** Lines 137-162: the [if]/[elif] chain that classifies the token [a].
    A [Path] is kept as the string it wraps. *)
Definition parse_token (defaults overrides : dict) (a : string) : M flow :=
  if contains "=" a then
    if startswith a "cfg=" then
      let custom_config := last_item (split "=" a) "" in
      log (MsgOverriding (DEFAULT_CONFIG E) custom_config);;
      doc ← lift (yaml_load E custom_config);
      mret (Next (filter (fun kv => kv.1 ≠ "cfg") doc))
    else
      match split "=" a with
      | [k; v] => mret (Next (<[k := VStr v]> overrides))
      | _ => raise ValueError
      end
  else if bool_decide (a ∈ tasks) then mret (Next (<["task" := VStr a]> overrides))
  else if bool_decide (a ∈ modes) then mret (Next (<["mode" := VStr a]> overrides))
  else match special_modes a with
  | Some run => run;; mret Return
  | None =>
      match defaults !! a with
      | Some d =>
          if is_False d then mret (Next (<[a := VBool true]> overrides))
          else raise (SyntaxError (MissingEquals a d))
      | None => raise (SyntaxError (NotAnArgument a))
      end
  end.

(** [cfg.<name>] on the namespace built by [get_config]. *)
Definition getattr (cfg : dict) (name : string) : M value :=
  match cfg !! name with
  | Some v => mret v
  | None => raise (AttributeError name)
  end.

(** [{"detect": yolo.v8.detect, ...}.get(cfg.task)]; a module is named by
    its task. *)
Definition module_for (task : value) : M (option string) :=
  match task with
  | VStr s => mret (if bool_decide (s ∈ tasks) then Some s else None)
  | VSeq _ | VMap _ => raise TypeError
  | _ => mret None
  end.

(** [{"train": module.train, ..., "export": yolo.engine.exporter.export}.get(cfg.mode)] *)
Definition func_for (module : string) (mode : value) : M (option operation) :=
  match mode with
  | VStr s =>
      mret (if String.eqb s "export" then Some ExporterExport
            else if bool_decide (s ∈ ["train"; "val"; "predict"])
                 then Some (ModuleOp module s)
                 else None)
  | VSeq _ | VMap _ => raise TypeError
  | _ => mret None
  end.

(** Lines 164-181: merge, resolve the task module and the mode function,
    and call it. *)
Definition run_config (defaults overrides : dict) : M unit :=
  cfg ← get_config (FromDict defaults) overrides;
  task ← getattr cfg "task";
  module ← module_for task;
  match module with
  | None => raise (SyntaxError (InvalidTask task))
  | Some module =>
      mode ← getattr cfg "mode";
      func ← func_for module mode;
      match func with
      | None => raise (SyntaxError (InvalidMode mode))
      | Some func => emit (Invoke func cfg)
      end
  end.

(** The [for a in args] loop.  Lines 164-181 are indented under the [for]:
    they belong to its body and run once for every token that falls through
    the classification. *)
Fixpoint loop (defaults overrides : dict) (args : list string) : M unit :=
  match args with
  | [] => mret tt
  | a :: args' =>
      fl ← parse_token defaults overrides a;
      match fl with
      | Return => mret tt
      | Next overrides' =>
          run_config defaults overrides';;
          loop defaults overrides' args'
      end
  end.

(** Lines 125-181 for a given token list. *)
Definition dispatch (args : list string) : M unit :=
  defaults ← lift (yaml_load E (DEFAULT_CONFIG E));
  loop defaults ∅ args.

(** [entrypoint()]; [sys_argv] is [sys.argv].  The source binds [args] to
    the fixed list [['train']] (the argument parser is commented out). *)
Definition stub_args : list string := ["train"].

Definition entrypoint (sys_argv : list string) : M unit :=
  if (Z.of_nat (length sys_argv) =? -1)%Z then
    log MsgHelp                                  (* no arguments passed *)
  else
    dispatch stub_args.

End WithEnv.

End Configs.

(** ** ultralytics/yolo/engine/model.py *)

Module Engine.

Section WithEnv.

Variable E : env.

(** [MODEL_MAP]: head -> [model, trainer, validator, predictor]. *)
Definition MODEL_MAP (task : string) : option (string * string * string * string) :=
  if String.eqb task "classify" then
    Some ("ClassificationModel", "yolo.TYPE.classify.ClassificationTrainer",
          "yolo.TYPE.classify.ClassificationValidator",
          "yolo.TYPE.classify.ClassificationPredictor")
  else if String.eqb task "detect" then
    Some ("DetectionModel", "yolo.TYPE.detect.DetectionTrainer",
          "yolo.TYPE.detect.DetectionValidator",
          "yolo.TYPE.detect.DetectionPredictor")
  else if String.eqb task "segment" then
    Some ("SegmentationModel", "yolo.TYPE.segment.SegmentationTrainer",
          "yolo.TYPE.segment.SegmentationValidator",
          "yolo.TYPE.segment.SegmentationPredictor")
  else None.

(** The fields of a [YOLO] object; a class is held by its dotted name. *)
Record YOLO : Type := Facade {
  type : string;
  ModelClass : option string;
  TrainerClass : option string;
  ValidatorClass : option string;
  PredictorClass : option string;
  model : option net;
  trainer : option trainer_obj;
  task : value;
  ckpt : option checkpoint
}.

(** [YOLO(type)] *)
Definition init (type : string) : YOLO :=
  Facade type None None None None None None VNone None.

Definition classify_heads : list string := ["classify"; "classifier"; "cls"; "fc"].
Definition detect_heads : list string := ["detect"].
Definition segment_heads : list string := ["segment"].

Definition unrecognized_task : exn :=
  Exception "task or model not recognized! Please refer the docs at : ".

Definition _guess_task_from_head (head : string) : outcome string :=
  let task : option string := None in
  let task := if bool_decide (lower head ∈ classify_heads) then Some "classify" else task in
  let task := if bool_decide (lower head ∈ detect_heads) then Some "detect" else task in
  let task := if bool_decide (lower head ∈ segment_heads) then Some "segment" else task in
  match task with
  | None => Raise unrecognized_task
  | Some task => Ok task
  end.

(** The four classes for [task]: each templated literal is evaluated, and
    the evaluation may fail when the package has no such name. *)
Definition _guess_ops_from_task (self : YOLO) (task : value)
    : M (string * string * string * string) :=
  match task with
  | VStr t =>
      match MODEL_MAP t with
      | None => raise (KeyError task)
      | Some (model_class, train_lit, val_lit, pred_lit) =>
          trainer_class ← lift (py_eval E (replace "TYPE" (type self) train_lit));
          validator_class ← lift (py_eval E (replace "TYPE" (type self) val_lit));
          predictor_class ← lift (py_eval E (replace "TYPE" (type self) pred_lit));
          mret (model_class, trainer_class, validator_class, predictor_class)
      end
  | VSeq _ | VMap _ => raise TypeError
  | _ => raise (KeyError task)
  end.

Definition set_ops (self : YOLO) (ops : string * string * string * string) : YOLO :=
  let '(m, t, v, p) := ops in
  Facade (type self) (Some m) (Some t) (Some v) (Some p)
         (model self) (trainer self) (task self) (ckpt self).

(** [v[key]] for a string key. *)
Definition item (v : value) (key : string) : M value :=
  match v with
  | VMap kvs =>
      match List.find (fun kv => String.eqb (fst kv) key) kvs with
      | Some kv => mret (snd kv)
      | None => raise (KeyError (VStr key))
      end
  | _ => raise TypeError
  end.

(** [v[-i]] for [i >= 1]. *)
Definition item_from_end (v : value) (i : nat) : M value :=
  match v with
  | VSeq xs =>
      match rev xs !! pred i with
      | Some x => mret x
      | None => raise IndexError
      end
  | VStr s =>
      match rev (list_ascii_of_string s) !! pred i with
      | Some c => mret (VStr (String c EmptyString))
      | None => raise IndexError
      end
  | VMap _ => raise (KeyError (VInt (- Z.of_nat i)))
  | _ => raise TypeError
  end.

(** [x.lower()] on a value that should be a string. *)
Definition str_lower (v : value) : M string :=
  match v with
  | VStr s => mret (lower s)
  | _ => raise (AttributeError "lower")
  end.

Definition new (self : YOLO) (cfg : string) : M YOLO :=
  cfg ← lift (check_yaml E (VStr cfg));
  cfg ← lift (load_model_yaml E cfg);
  head ← item cfg "head";
  layer ← item_from_end head 1;
  name ← item_from_end layer 2;
  task ← match name with
         | VStr h => lift (_guess_task_from_head h)
         | _ => raise (AttributeError "lower")
         end;
  ops ← _guess_ops_from_task self (VStr task);
  let '(m, t, v, p) := ops in
  mret (Facade (type self) (Some m) (Some t) (Some v) (Some p)
               (Some (Built m cfg)) (trainer self) (VStr task) (ckpt self)).

(** [ckpt["train_args"]["task"]] *)
Definition ckpt_task (c : checkpoint) : M value :=
  match train_args c !! "task" with
  | Some t => mret t
  | None => raise (KeyError (VStr "task"))
  end.

Definition load (self : YOLO) (weights : string) : M YOLO :=
  emit (TorchLoad (Some weights));;
  c ← lift (torch_load E (Some weights));
  task ← ckpt_task c;
  ops ← _guess_ops_from_task self task;
  let '(m, t, v, p) := ops in
  mret (Facade (type self) (Some m) (Some t) (Some v) (Some p)
               (Some (Loaded weights)) (trainer self) task (Some c)).

Definition not_initialized : exn := Exception "model not initialized!".

(** [self.<Class>(...)] when the class attribute may still be [None]. *)
Definition the_class (cls : option string) : M string :=
  match cls with
  | Some c => mret c
  | None => raise TypeError
  end.

(** Modelled from the spec: [get_config] of [ultralytics.yolo.utils.configs],
    which [model.py] imports and which is not among the sources.  The
    specification (4.1) knows one configuration merger, so it is taken to be
    [get_config] of [configs/__init__.py]. *)
Definition utils_get_config (config : Configs.config_src) (overrides : dict) : M dict :=
  Configs.get_config E config overrides.

(** Modelled from the spec: [DEFAULT_CONFIG] of
    [ultralytics.yolo.engine.trainer], which is not among the sources.  The
    specification (6) knows one packaged defaults document. *)
Definition trainer_DEFAULT_CONFIG : string := DEFAULT_CONFIG E.

Definition val (self : YOLO) (data : value) (kwargs : dict) : M unit :=
  match model self with
  | None => raise not_initialized
  | Some net =>
      args ← utils_get_config (Configs.FromFile trainer_DEFAULT_CONFIG) kwargs;
      let args := <["data" := data]> args in
      let args := <["task" := task self]> args in
      validator ← the_class (ValidatorClass self);
      emit (NewValidator validator args);;
      emit (RunValidator validator net)
  end.

Definition not_bound : exn := Exception "model not initialized. Use .new() or .load()".

Definition dataset_not_provided : exn :=
  Exception "dataset not provided! Please check if you have defined `data` in you configs".

(** Lines 135-140 of [train]: the keyword arguments, or the [cfg] document
    in their place, with [task] and [mode] forced. *)
Definition train_overrides (self : YOLO) (kwargs : dict) : M dict :=
  overrides ← (if truthy (dict_get kwargs "cfg") then
                 log (MsgCfgPassed (dict_get kwargs "cfg"));;
                 path ← lift (check_yaml E (dict_get kwargs "cfg"));
                 lift (yaml_load E path)
               else mret kwargs);
  let overrides := <["task" := task self]> overrides in
  let overrides := <["mode" := VStr "train"]> overrides in
  mret overrides.

Definition set_trainer (self : YOLO) (t : trainer_obj) : YOLO :=
  Facade (type self) (ModelClass self) (TrainerClass self) (ValidatorClass self)
         (PredictorClass self) (model self) (Some t) (task self) (ckpt self).

Definition train (self : YOLO) (kwargs : dict) : M YOLO :=
  if negb (bool_decide (is_Some (model self))) && negb (bool_decide (is_Some (ckpt self)))
  then raise not_bound
  else
    overrides ← train_overrides self kwargs;
    if negb (truthy (dict_get overrides "data")) then raise dataset_not_provided
    else
      cls ← the_class (TrainerClass self);
      emit (NewTrainer cls overrides);;
      net ← match ckpt self with
            | Some c => emit (TrainerLoadModel cls);; mret (FromCheckpoint c)
            | None => mret (FromFacade (model self))
            end;
      emit (TrainerTrain cls);;
      mret (set_trainer self (Trainer cls overrides (Some net))).

Definition unrecognised_task (task : string) : exn :=
  Exception ("unrecognised task - " ++ task ++
             ". Supported tasks are dict_keys(['classify', 'detect', 'segment'])").

(** [bool(s)] for an optional string argument ([None] and [''] are false). *)
Definition given (s : option string) : bool :=
  match s with
  | Some s => truthy (VStr s)
  | None => false
  end.

Definition resume (self : YOLO) (task model : option string) : M YOLO :=
  task ← (if given task then
            let t := default "" task in
            if bool_decide (is_Some (MODEL_MAP (lower t))) then mret (VStr t)
            else raise (unrecognised_task t)
          else
            emit (TorchLoad model);;
            c ← lift (torch_load E model);
            ckpt_task c);
  lowered ← str_lower task;
  ops ← _guess_ops_from_task self (VStr lowered);
  let self := set_ops self ops in
  cls ← the_class (TrainerClass self);
  let overrides : dict :=
    <["resume" := if given model then VStr (default "" model) else VBool true]>
      (<["task" := VStr lowered]> ∅) in
  emit (NewTrainer cls overrides);;
  emit (TrainerTrain cls);;
  mret (set_trainer self (Trainer cls overrides None)).

End WithEnv.

End Engine.

(** ** ultralytics/yolo/engine/model.py: the inference side of [YOLO] *)

Module Inference.

Import Engine.

(** [predictor.args.img_size] as the predictor resolved it: an [int], or
    the list the configuration library hands back. *)
Inductive img_size : Type :=
| Size (n : Z)
| Sizes (xs : list value).

(** The lines that warn about a missing model and go on. *)
Definition warn_unbound (self : YOLO) : M unit :=
  if negb (bool_decide (is_Some (model self))) then log MsgNotInitialized else mret tt.

(** [self.model.<method>(arg)] *)
Definition model_method (self : YOLO) (method : string) (arg : value) : M unit :=
  match model self with
  | Some net => emit (ModelCall net method arg)
  | None => raise (AttributeError method)
  end.

Definition info (self : YOLO) (verbose : bool) : M unit :=
  warn_unbound self;;
  model_method self "info" (VBool verbose).

Definition fuse (self : YOLO) : M unit :=
  warn_unbound self;;
  model_method self "fuse" VNone.

(** [self.model(imgs)]: calling [None] is a [TypeError]. *)
Definition __call__ (self : YOLO) (imgs : value) : M unit :=
  warn_unbound self;;
  match model self with
  | Some net => emit (ModelCall net "__call__" imgs)
  | None => raise TypeError
  end.

Definition predict (self : YOLO) (imgs : value) : M unit := __call__ self imgs.

(** [xs[i]] on a list, for [i >= 0]. *)
Definition subscript (xs : list value) (i : nat) : M value :=
  match xs !! i with
  | Some x => mret x
  | None => raise IndexError
  end.

(** Lines 104-108: the size is expanded to a pair. *)
Definition expand_img_size (sz : img_size) : M (list value) :=
  match sz with
  | Sizes xs =>
      if (length xs =? 1)%nat then
        a ← subscript xs 0; b ← subscript xs 0; mret [a; b]
      else
        a ← subscript xs 0; b ← subscript xs 1; mret [a; b]
  | Size n => mret [VInt n; VInt n]
  end.

Section WithPredictor.

(** [predictor.args.img_size] of a predictor of class [cls] built from
    [overrides]; the predictor classes live outside this layer. *)
Variable img_size_of : string -> dict -> outcome img_size.

Definition visualize_preds (self : YOLO) (kwargs : dict) : M unit :=
  predictor ← the_class (PredictorClass self);
  emit (NewPredictor predictor kwargs);;
  sz ← lift (img_size_of predictor kwargs);
  size ← expand_img_size sz;
  source ← match kwargs !! "source" with
           | Some v => mret v
           | None => raise (KeyError (VStr "source"))
           end;
  emit (SetupPredictor predictor size (model self) source);;
  emit (RunPredictor predictor).

End WithPredictor.

End Inference.

(** ** A concrete world for worked examples *)

Module Demo.

(** A defaults document in the shape of [configs/default.yaml]. *)
Definition defaults : dict :=
  list_to_map
    [("task", VStr "detect"); ("mode", VStr "train"); ("model", VNone);
     ("data", VNone); ("epochs", VInt 100); ("imgsz", VInt 640);
     ("show", VBool false); ("save", VBool true); ("cfg", VNone);
     ("augment", VMap [("hsv_h", VInt 1); ("flipud", VInt 0)])].

(** A user document as passed by [cfg=custom.yaml]. *)
Definition custom : dict :=
  list_to_map [("cfg", VStr "custom.yaml"); ("epochs", VInt 3); ("data", VStr "coco128.yaml")].

Definition files (path : string) : outcome dict :=
  if String.eqb path "default.yaml" then Ok defaults
  else if String.eqb path "custom.yaml" then Ok custom
  else Raise (ExternalError "FileNotFoundError").

(** Length of the longest common prefix. *)
Fixpoint common_prefix (a b : string) : nat :=
  match a, b with
  | String c a', String d b' => if Ascii.eqb c d then S (common_prefix a' b') else 0
  | _, _ => 0
  end.

(** A stand-in for the sequence matcher: [2 * M / T] with [M] the common
    prefix and [T] the total length. *)
Definition prefix_ratio (a b : string) : Q :=
  let t := (String.length a + String.length b)%nat in
  if (t =? 0)%nat then 1%Q
  else (Z.of_nat (2 * common_prefix a b) # Pos.of_nat t)%Q.

Definition segment_ckpt : checkpoint :=
  Checkpoint (list_to_map [("task", VStr "segment"); ("epochs", VInt 100)]).

Definition checkpoints (path : option string) : outcome checkpoint :=
  match path with
  | Some p => if String.eqb p "last.pt" then Ok segment_ckpt
              else Raise (ExternalError "FileNotFoundError")
  | None => Raise (AttributeError "seek")
  end.

(** The package has the [v8] classes only. *)
Definition classes (name : string) : outcome string :=
  if String.prefix "yolo.v8." name then Ok name
  else Raise (AttributeError name).

(** Copying a file onto itself is refused. *)
Definition copier (src dst : string) : outcome unit :=
  if String.eqb src dst then Raise (ExternalError "SameFileError") else Ok tt.

Definition world : env :=
  {| yaml_load := files;
     DEFAULT_CONFIG := "default.yaml";
     version := "8.0.0";
     cwd := "/work";
     ratio := prefix_ratio;
     check_yaml := fun v => match v with
                            | VStr s => Ok s
                            | _ => Raise TypeError
                            end;
     load_model_yaml := fun _ => Raise (ExternalError "FileNotFoundError");
     torch_load := checkpoints;
     py_eval := classes;
     copy2 := copier |}.

(** The same world, with every checkpoint recording the task [t]. *)
Definition world_recording (t : string) : env :=
  {| yaml_load := files;
     DEFAULT_CONFIG := "default.yaml";
     version := "8.0.0";
     cwd := "/work";
     ratio := prefix_ratio;
     check_yaml := check_yaml world;
     load_model_yaml := load_model_yaml world;
     torch_load := fun _ => Ok (Checkpoint {[ "task" := VStr t ]});
     py_eval := classes;
     copy2 := copier |}.

(** A model definition whose last head layer is [Detect]. *)
Definition detect_yaml : value :=
  VMap [("nc", VInt 80);
        ("head", VSeq [VSeq [VInt (-1); VInt 1; VStr "Conv"; VSeq [VInt 256]];
                       VSeq [VSeq [VInt 15; VInt 18]; VInt 1; VStr "Detect"; VSeq [VStr "nc"]]])].

(** The same world, with every model definition being [detect_yaml]. *)
Definition world_defining : env :=
  {| yaml_load := files;
     DEFAULT_CONFIG := "default.yaml";
     version := "8.0.0";
     cwd := "/work";
     ratio := prefix_ratio;
     check_yaml := check_yaml world;
     load_model_yaml := fun _ => Ok detect_yaml;
     torch_load := checkpoints;
     py_eval := classes;
     copy2 := copier |}.

(** A predictor that takes its size from the [img_size] override, 640 when
    there is none. *)
Definition img_sizes (cls : string) (overrides : dict) : outcome Inference.img_size :=
  match overrides !! "img_size" with
  | None => Ok (Inference.Size 640)
  | Some (VInt n) => Ok (Inference.Size n)
  | Some (VSeq xs) => Ok (Inference.Sizes xs)
  | Some _ => Raise TypeError
  end.

(** A facade after [load("last.pt")]. *)
Definition loaded : Engine.YOLO :=
  Engine.Facade "v8" (Some "SegmentationModel")
    (Some "yolo.v8.segment.SegmentationTrainer")
    (Some "yolo.v8.segment.SegmentationValidator")
    (Some "yolo.v8.segment.SegmentationPredictor")
    (Some (Loaded "last.pt")) None (VStr "segment") (Some segment_ckpt).

End Demo.

(** ** Vocabulary of the properties *)

Module Props.

Import Configs Engine.

(** Every word [_guess_task_from_head] compares with. *)
Definition all_heads : list string := classify_heads ++ detect_heads ++ segment_heads.

(** The operations called, in order, among the events of a run. *)
Definition invocations (t : list event) : list operation :=
  omap (fun e => match e with
                 | Invoke op _ => Some op
                 | _ => None
                 end) t.

(** The configuration [val] hands to the validator. *)
Definition val_args (self : YOLO) (data : value) (merged : dict) : dict :=
  <["task" := task self]> (<["data" := data]> merged).

(** The overrides [resume] gives the trainer. *)
Definition resume_overrides (task : string) (model : option string) : dict :=
  <["resume" := if given model then VStr (default "" model) else VBool true]>
    (<["task" := VStr task]> ∅).


Section WithEnv.

Variable E : env.

(** The lines of the mismatch report for overrides [O] against defaults [D]. *)
Definition report_lines (D O : dict) : list event :=
  (fun k => LogInfo (MsgInvalidKey k
                       (get_close_matches E k (elements (dom D)) 3 (6 # 10)))) <$>
    mismatched_keys (dom D) (dom O).

(** A configuration argument and the dictionary it stands for. *)
Definition resolves_to (config : config_src) (D : dict) : Prop :=
  match config with
  | FromFile path => yaml_load E path = Ok D
  | FromDict d => d = D
  end.


End WithEnv.

End Props.

Export Props.

(** * Properties *)

(** Settle a closed decidable proposition by evaluating its decision. *)
Ltac by_computation := apply (bool_decide_unpack _); vm_compute; exact I.

(** Settle a closed equation by evaluating its left-hand side. *)
Ltac vm_refl :=
  match goal with
  | |- @eq ?T _ ?rhs => vm_cast_no_check (@eq_refl T rhs)
  end.

(** ** Strings *)

Section Strings.

Lemma lower_char_idem (c : ascii) : lower_char (lower_char c) = lower_char c.
Proof. destruct c as [[] [] [] [] [] [] [] []]; reflexivity. Qed.

Lemma lower_idem (s : string) : lower (lower s) = lower s.
Proof.
  induction s as [|c s IH]; simpl; [reflexivity|].
  now rewrite lower_char_idem, IH.
Qed.

Lemma lower_char_nat (c : ascii) :
  nat_of_ascii (lower_char c) =
  if (65 <=? nat_of_ascii c)%nat && (nat_of_ascii c <=? 90)%nat
  then (nat_of_ascii c + 32)%nat else nat_of_ascii c.
Proof.
  unfold lower_char.
  destruct ((65 <=? nat_of_ascii c)%nat && (nat_of_ascii c <=? 90)%nat) eqn:Hu;
    [|reflexivity].
  apply andb_true_iff in Hu as [_ Hhi]. apply Nat.leb_le in Hhi.
  apply nat_ascii_embedding. lia.
Qed.

Lemma nat_of_ascii_inj (c d : ascii) : nat_of_ascii c = nat_of_ascii d -> c = d.
Proof.
  intros H. rewrite <- (ascii_nat_embedding c), <- (ascii_nat_embedding d).
  now rewrite H.
Qed.

(** Split on whether [c] is an upper-case letter, as [lower_char] does. *)
Ltac upper_cases c :=
  let H := fresh "Hup" in
  let H1 := fresh "Hlo" in
  let H2 := fresh "Hhi" in
  destruct ((65 <=? nat_of_ascii c)%nat && (nat_of_ascii c <=? 90)%nat) eqn:H;
  [ apply andb_true_iff in H as [H1 H2];
    apply Nat.leb_le in H1; apply Nat.leb_le in H2
  | apply andb_false_iff in H as [H1|H1]; apply Nat.leb_gt in H1 ].

Lemma same_letter_lower (c d : ascii) :
  same_letter c d <-> lower_char c = lower_char d.
Proof.
  unfold same_letter, is_upper. split.
  - intros H. apply nat_of_ascii_inj. rewrite !lower_char_nat.
    destruct H as [->|[[Hc Hd]|[Hd Hc]]]; [reflexivity| |];
      upper_cases c; upper_cases d; lia.
  - intros H. apply (f_equal nat_of_ascii) in H. rewrite !lower_char_nat in H.
    upper_cases c; upper_cases d;
      first [ left; apply nat_of_ascii_inj; lia
            | right; left; lia
            | right; right; lia ].
Qed.

Lemma same_letters_lower (s t : string) : same_letters s t <-> lower s = lower t.
Proof.
  split.
  - induction 1 as [|c d s t Hc _ IH]; simpl; [reflexivity|].
    apply same_letter_lower in Hc. now rewrite Hc, IH.
  - revert t. induction s as [|c s IH]; intros [|d t]; simpl; intros H;
      try discriminate.
    + constructor.
    + injection H as Hc Hs. constructor; [now apply same_letter_lower|auto].
Qed.

Lemma same_letters_refl (s : string) : same_letters s s.
Proof. now apply same_letters_lower. Qed.

Lemma same_letters_sym (s t : string) : same_letters s t -> same_letters t s.
Proof. rewrite !same_letters_lower. congruence. Qed.

End Strings.

(** ** Task inference from the head *)

Section TaskInference.

Import Engine.

Lemma heads_are_lower (w : string) : w ∈ all_heads -> lower w = w.
Proof.
  unfold all_heads, classify_heads, detect_heads, segment_heads. simpl.
  rewrite !elem_of_cons, elem_of_nil.
  intros H. repeat (destruct H as [->|H]; [reflexivity|]). destruct H.
Qed.

Lemma heads_split (w : string) :
  w ∈ classify_heads \/ w ∈ detect_heads \/ w ∈ segment_heads -> w ∈ all_heads.
Proof. unfold all_heads. rewrite !elem_of_app. tauto. Qed.

Lemma guess_by_lower (s t : string) :
  lower s = lower t -> _guess_task_from_head s = _guess_task_from_head t.
Proof. unfold _guess_task_from_head. now intros ->. Qed.

Lemma guess_of_head (s w : string) :
  w ∈ all_heads -> same_letters s w ->
  _guess_task_from_head s = _guess_task_from_head w.
Proof. intros _ H. apply guess_by_lower. now apply same_letters_lower. Qed.

(** C5. [_guess_task_from_head] does not see the case of its argument: every
    case variant of "classify", "classifier", "cls" or "fc" gives classify,
    of "detect" gives detect, of "segment" gives segment, and a string that
    is a case variant of none of these six words raises the
    task-not-recognized exception. *)
Theorem guess_task_from_head_spec (s : string) :
  (forall t, same_letters s t -> _guess_task_from_head t = _guess_task_from_head s) /\
  (same_letters s "classify" \/ same_letters s "classifier" \/
   same_letters s "cls" \/ same_letters s "fc" ->
   _guess_task_from_head s = Ok "classify") /\
  (same_letters s "detect" -> _guess_task_from_head s = Ok "detect") /\
  (same_letters s "segment" -> _guess_task_from_head s = Ok "segment") /\
  ((forall w, w ∈ ["classify"; "classifier"; "cls"; "fc"; "detect"; "segment"] ->
              ~ same_letters s w) ->
   _guess_task_from_head s =
   Raise (Exception "task or model not recognized! Please refer the docs at : ")).
Proof.
  assert (forall w, same_letters s w ->
                    _guess_task_from_head s = _guess_task_from_head w) as Hword.
  { intros w H. apply guess_by_lower. now apply same_letters_lower. }
  split; [|split; [|split; [|split]]].
  - intros t H. symmetry. now apply Hword.
  - intros [H|[H|[H|H]]]; rewrite (Hword _ H); reflexivity.
  - intros H. rewrite (Hword _ H). reflexivity.
  - intros H. rewrite (Hword _ H). reflexivity.
  - intros Hnone.
    change ["classify"; "classifier"; "cls"; "fc"; "detect"; "segment"]
      with all_heads in Hnone.
    assert (Hout : forall l, l ⊆ all_heads -> bool_decide (lower s ∈ l) = false).
    { intros l Hl. apply bool_decide_eq_false. intros Hin.
      apply (Hnone (lower s)); [now apply Hl|].
      apply same_letters_lower. symmetry. apply lower_idem. }
    unfold _guess_task_from_head.
    rewrite !Hout; [reflexivity|intros w Hw; apply heads_split; auto..].
Qed.

End TaskInference.

(** C5 at work: a case variant of each of the six words gives its task;
    [pose] and [segmentation] are refused. *)
Lemma guess_task_from_head_spec_witness :
  Engine._guess_task_from_head "Classify" = Ok "classify" /\
  Engine._guess_task_from_head "CLASSIFIER" = Ok "classify" /\
  Engine._guess_task_from_head "Cls" = Ok "classify" /\
  Engine._guess_task_from_head "FC" = Ok "classify" /\
  Engine._guess_task_from_head "DeTeCt" = Ok "detect" /\
  Engine._guess_task_from_head "SEGMENT" = Ok "segment" /\
  Engine._guess_task_from_head "pose" =
    Raise (Exception "task or model not recognized! Please refer the docs at : ") /\
  Engine._guess_task_from_head "segmentation" =
    Raise (Exception "task or model not recognized! Please refer the docs at : ").
Proof.
  assert (forall a b, lower a = lower b -> same_letters a b) as Hsame
    by (intros a b H; now apply same_letters_lower).
  assert (forall a, lower a ∉ Props.all_heads ->
                    forall w, w ∈ ["classify"; "classifier"; "cls"; "fc"; "detect"; "segment"] ->
                              ~ same_letters a w) as Hnone.
  { intros a Ha w Hw Hs. apply same_letters_lower in Hs.
    rewrite (heads_are_lower w Hw) in Hs. subst w. contradiction. }
  split; [|split; [|split; [|split; [|split; [|split; [|split]]]]]].
  - destruct (guess_task_from_head_spec "Classify") as (_ & Hc & _).
    apply Hc. left. now apply Hsame.
  - destruct (guess_task_from_head_spec "CLASSIFIER") as (_ & Hc & _).
    apply Hc. right. left. now apply Hsame.
  - destruct (guess_task_from_head_spec "Cls") as (_ & Hc & _).
    apply Hc. right. right. left. now apply Hsame.
  - destruct (guess_task_from_head_spec "FC") as (_ & Hc & _).
    apply Hc. right. right. right. now apply Hsame.
  - destruct (guess_task_from_head_spec "DeTeCt") as (_ & _ & Hd & _).
    apply Hd. now apply Hsame.
  - destruct (guess_task_from_head_spec "SEGMENT") as (_ & _ & _ & Hs & _).
    apply Hs. now apply Hsame.
  - destruct (guess_task_from_head_spec "pose") as (_ & _ & _ & _ & Hn).
    apply Hn, Hnone. by_computation.
  - destruct (guess_task_from_head_spec "segmentation") as (_ & _ & _ & _ & Hn).
    apply Hn, Hnone. by_computation.
Defined.

(** ** The monad *)

Section Monad.

Lemma bind_ok {A B} (m : M A) (k : A -> M B) (a : A) :
  result m = Ok a ->
  m ≫= k = Run (trace m ++ trace (k a)) (result (k a)).
Proof. unfold mbind, M_bind, bind. now intros ->. Qed.

Lemma bind_ret {A B} (a : A) (k : A -> M B) : mret a ≫= k = k a.
Proof. unfold mbind, M_bind, mret, M_ret, bind, ret. simpl. now destruct (k a). Qed.

Lemma bind_emit {B} (e : event) (k : unit -> M B) :
  emit e ≫= k = Run (e :: trace (k tt)) (result (k tt)).
Proof. reflexivity. Qed.

Lemma bind_raise {A B} (e : exn) (k : A -> M B) : raise e ≫= k = raise e.
Proof. reflexivity. Qed.

Lemma bind_lift_ok {A B} (a : A) (k : A -> M B) : lift (Ok a) ≫= k = k a.
Proof. apply (bind_ret a k). Qed.

Lemma for_each_log {A} (f : A -> message) (xs : list A) :
  for_each (fun x => log (f x)) xs = Run ((fun x => LogInfo (f x)) <$> xs) (Ok tt).
Proof.
  induction xs as [|x xs IH]; simpl; [reflexivity|].
  unfold bind. simpl. now rewrite IH.
Qed.

End Monad.

(** ** Merging defaults and overrides *)

Section Merge.

Import Configs.

Variable E : env.

Lemma insert_desc_elem (a x : Q * string) (l : list (Q * string)) :
  x ∈ insert_desc a l <-> x = a \/ x ∈ l.
Proof.
  induction l as [|b l IH]; simpl.
  - rewrite list_elem_of_singleton. rewrite elem_of_nil. tauto.
  - destruct (ge_pair a b); rewrite !elem_of_cons; [tauto|].
    rewrite IH. tauto.
Qed.

Lemma sorted_elem (x : Q * string) (l : list (Q * string)) :
  x ∈ foldr insert_desc [] l <-> x ∈ l.
Proof.
  induction l as [|a l IH]; simpl; [reflexivity|].
  rewrite insert_desc_elem, elem_of_cons, IH. reflexivity.
Qed.

Lemma nlargest_length (n : nat) (l : list (Q * string)) : length (nlargest n l) <= n.
Proof. unfold nlargest. rewrite length_take. lia. Qed.

Lemma nlargest_elem (n : nat) (x : Q * string) (l : list (Q * string)) :
  x ∈ nlargest n l -> x ∈ l.
Proof.
  unfold nlargest. intros H. apply sorted_elem.
  apply (subseteq_take n _ _ H).
Qed.

Lemma close_matches_length (word : string) (ps : list string) (n : nat) (cutoff : Q) :
  length (get_close_matches E word ps n cutoff) <= n.
Proof. unfold get_close_matches. rewrite length_fmap. apply nlargest_length. Qed.

Lemma close_matches_elem (word x : string) (ps : list string) (n : nat) (cutoff : Q) :
  x ∈ get_close_matches E word ps n cutoff ->
  x ∈ ps /\ (cutoff <= ratio E x word)%Q.
Proof.
  unfold get_close_matches. intros H.
  apply list_elem_of_fmap in H as ([q y] & -> & H). simpl.
  apply nlargest_elem, list_elem_of_fmap in H as (z & Hz & H).
  injection Hz as -> ->.
  apply list_elem_of_filter in H as [Hc Hin].
  split; [exact Hin|]. apply Qle_bool_iff. now apply Is_true_true.
Qed.

Lemma mismatched_elem (base custom : gset string) (k : string) :
  k ∈ mismatched_keys base custom <-> k ∈ custom /\ k ∉ base.
Proof.
  unfold mismatched_keys. rewrite list_elem_of_filter, elem_of_elements. tauto.
Qed.

Lemma mismatched_NoDup (base custom : gset string) :
  NoDup (mismatched_keys base custom).
Proof. apply NoDup_filter, NoDup_elements. Qed.

Lemma mismatched_nil (base custom : gset string) :
  mismatched_keys base custom = [] <-> custom ⊆ base.
Proof.
  split.
  - intros Hnil k Hk. destruct (decide (k ∈ base)) as [|Hn]; [done|].
    assert (k ∈ mismatched_keys base custom) as Hin by now apply mismatched_elem.
    rewrite Hnil in Hin. now apply elem_of_nil in Hin.
  - intros Hsub. destruct (mismatched_keys base custom) as [|k l] eqn:Hm; [done|].
    assert (k ∈ mismatched_keys base custom) as Hin by (rewrite Hm; left).
    apply mismatched_elem in Hin as [Hc Hb]. now apply Hsub in Hc.
Qed.

Lemma keys_subset (D O : dict) :
  dom O ⊆ dom D <-> (forall k, is_Some (O !! k) -> is_Some (D !! k)).
Proof.
  split.
  - intros H k Hk. apply elem_of_dom, H, elem_of_dom, Hk.
  - intros H k Hk. apply elem_of_dom, H, elem_of_dom, Hk.
Qed.

Lemma check_config_mismatch_run (D O : dict) :
  check_config_mismatch E D O =
  Run (report_lines E D O)
      (if bool_decide (mismatched_keys (dom D) (dom O) = []) then Ok tt else Exit).
Proof.
  unfold check_config_mismatch, report_lines, report. cbv zeta.
  rewrite (bind_ok _ _ tt); rewrite for_each_log; [|reflexivity].
  simpl. destruct (bool_decide _); simpl; now rewrite app_nil_r.
Qed.

Lemma get_config_run (D O : dict) :
  get_config E (FromDict D) O =
  Run (report_lines E D O)
      (if bool_decide (mismatched_keys (dom D) (dom O) = []) then Ok (O ∪ D) else Exit).
Proof.
  unfold get_config. rewrite bind_ret, check_config_mismatch_run.
  unfold mbind, M_bind, bind. simpl.
  destruct (bool_decide _); simpl; [now rewrite app_nil_r|reflexivity].
Qed.

Lemma get_config_file (path : string) (D O : dict) :
  yaml_load E path = Ok D ->
  get_config E (FromFile path) O = get_config E (FromDict D) O.
Proof. unfold get_config. intros ->. now rewrite bind_lift_ok, bind_ret. Qed.

End Merge.

Section MergeSpec.

Import Configs.

Variable E : env.

(** C3. Merging overrides [O] into defaults [D] succeeds exactly when every
    key of [O] is a key of [D].  Otherwise the run ends in [sys.exit()], after
    one report line per offending key and for no other key; each line carries
    at most three keys of [D], each of similarity at least 0.6 to the
    offending key. *)
Theorem merge_succeeds_iff (D O : dict) :
  let run := get_config E (FromDict D) O in
  let bad := mismatched_keys (dom D) (dom O) in
  let similar k := get_close_matches E k (elements (dom D)) 3 (6 # 10) in
  ((exists merged, result run = Ok merged) <->
   (forall k, is_Some (O !! k) -> is_Some (D !! k))) /\
  (~ (forall k, is_Some (O !! k) -> is_Some (D !! k)) -> result run = Exit) /\
  trace run = (fun k => LogInfo (MsgInvalidKey k (similar k))) <$> bad /\
  NoDup bad /\
  (forall k, k ∈ bad <-> is_Some (O !! k) /\ D !! k = None) /\
  (forall k, length (similar k) <= 3) /\
  (forall k x, x ∈ similar k -> is_Some (D !! x) /\ (6 # 10 <= ratio E x k)%Q).
Proof.
  cbv zeta. rewrite get_config_run. simpl.
  repeat split.
  - intros [merged Hm]. apply keys_subset, mismatched_nil.
    destruct (bool_decide_reflect (mismatched_keys (dom D) (dom O) = [])); [done|discriminate].
  - intros H. apply keys_subset, mismatched_nil in H.
    rewrite bool_decide_eq_true_2 by done. eauto.
  - intros H. rewrite bool_decide_eq_false_2; [reflexivity|].
    intros Hnil. apply H, keys_subset, mismatched_nil, Hnil.
  - apply mismatched_NoDup.
  - apply mismatched_elem in H as [H _]. now apply elem_of_dom.
  - apply mismatched_elem in H as [_ H]. now apply not_elem_of_dom.
  - intros [Hk Hn]. apply mismatched_elem. split.
    + now apply elem_of_dom.
    + now apply not_elem_of_dom.
  - intros k. apply close_matches_length.
  - apply close_matches_elem in H as [H _].
    apply elem_of_dom. now apply elem_of_elements.
  - apply close_matches_elem in H as [_ H]. exact H.
Qed.

(** C4. When the merge succeeds, every key of the defaults [D] is mapped to
    the override's value if the overrides [O] have the key and to the default
    value otherwise; the chosen value is taken whole, whatever its structure,
    and the merged configuration has no other keys. *)
Theorem merged_is_overlay (config : config_src) (D O merged : dict) :
  resolves_to E config D ->
  result (get_config E config O) = Ok merged ->
  (forall k, is_Some (D !! k) ->
     merged !! k = match O !! k with
                   | Some v => Some v
                   | None => D !! k
                   end) /\
  dom merged = dom D.
Proof.
  intros Hc Hm.
  assert (get_config E config O = get_config E (FromDict D) O) as Heq.
  { destruct config as [path|d]; simpl in Hc; [now apply get_config_file|now subst]. }
  rewrite Heq, get_config_run in Hm. simpl in Hm.
  destruct (bool_decide_reflect (mismatched_keys (dom D) (dom O) = [])) as [Hnil|];
    [|discriminate].
  injection Hm as <-. split.
  - intros k _. rewrite lookup_union. destruct (O !! k), (D !! k); reflexivity.
  - apply mismatched_nil in Hnil. rewrite dom_union_L.
    now apply subseteq_union_1_L.
Qed.

End MergeSpec.

(** C3 at work: the misspelt override [epoch] stops the run after one report
    line that suggests [epochs]. *)
Lemma merge_succeeds_iff_witness :
  let run := Configs.get_config Demo.world (Configs.FromDict Demo.defaults)
               {[ "epoch" := VInt 5 ]} in
  result run = Exit /\ trace run = [LogInfo (MsgInvalidKey "epoch" ["epochs"])].
Proof.
  destruct (merge_succeeds_iff Demo.world Demo.defaults {[ "epoch" := VInt 5 ]})
    as (_ & Hexit & Htrace & _).
  split.
  - apply Hexit. intros Hkeys.
    destruct (Hkeys "epoch") as [v Hv]; [vm_compute; eauto|].
    vm_compute in Hv. discriminate.
  - rewrite Htrace. vm_refl.
Defined.

(** C4 at work: overriding the nested [augment] mapping replaces it whole;
    its default entry [flipud] is not carried over. *)
Lemma merged_is_overlay_witness :
  let O : dict := {[ "augment" := VMap [("hsv_h", VInt 5)] ]} in
  exists merged,
    result (Configs.get_config Demo.world (Configs.FromFile "default.yaml") O) = Ok merged /\
    merged !! "augment" = Some (VMap [("hsv_h", VInt 5)]) /\
    merged !! "epochs" = Some (VInt 100).
Proof.
  intros O. exists (O ∪ Demo.defaults).
  assert (result (Configs.get_config Demo.world (Configs.FromFile "default.yaml") O)
          = Ok (O ∪ Demo.defaults)) as Hm by vm_refl.
  split; [exact Hm|].
  destruct (merged_is_overlay Demo.world (Configs.FromFile "default.yaml")
              Demo.defaults O (O ∪ Demo.defaults) eq_refl Hm) as [Hk _].
  split.
  - rewrite (Hk "augment"); [vm_refl|vm_compute; eauto].
  - rewrite (Hk "epochs"); [vm_refl|vm_compute; eauto].
Defined.

(** ** The dispatcher *)

Section Dispatch.

Import Configs.

Variable E : env.

Lemma startswith_app (s p : string) :
  startswith s p = true -> exists r, s = (p ++ r)%string.
Proof.
  unfold startswith. revert s.
  induction p as [|c p IH]; intros s; simpl.
  - intros _. now exists s.
  - destruct s as [|d s]; simpl; [discriminate|].
    destruct (ascii_dec c d) as [->|]; [|discriminate].
    intros H. destruct (IH s H) as [r ->]. now exists r.
Qed.

Lemma startswith_cfg_contains (a : string) :
  startswith a "cfg=" = true -> contains "=" a = true.
Proof. intros H. apply startswith_app in H as [r ->]. reflexivity. Qed.

Lemma split_without (sep : ascii) (s : string) :
  contains sep s = false -> split sep s = [s].
Proof.
  induction s as [|c s IH]; simpl; [reflexivity|].
  destruct (Ascii.eqb c sep); simpl; [discriminate|].
  intros H. now rewrite (IH H).
Qed.

(** The path of [cfg=<path>] is [<path>] itself when it holds no [=]. *)
Lemma cfg_path (p : string) :
  contains "=" p = false -> last_item (split "=" ("cfg=" ++ p)) "" = p.
Proof.
  intros H. pose proof (split_without "=" p H) as Hp.
  unfold last_item. simpl. change (String.append "" p) with p.
  now rewrite Hp.
Qed.

Lemma without_cfg (doc : dict) :
  filter (fun kv : string * value => kv.1 ≠ "cfg") doc = delete "cfg" doc.
Proof.
  apply map_eq. intros k. destruct (decide (k = "cfg")) as [->|Hk].
  - rewrite lookup_delete_eq. apply map_lookup_filter_None. right.
    intros x _ Hx. now apply Hx.
  - rewrite lookup_delete_ne by done.
    destruct (doc !! k) as [v|] eqn:Hv.
    + now apply map_lookup_filter_Some.
    + apply map_lookup_filter_None. now left.
Qed.

(** C7. A token that starts with [cfg=] makes the overrides equal to the
    document loaded from the path after the last [=], without its [cfg]
    entry: the overrides accumulated so far play no part, and the rest of the
    dispatch goes on with exactly these overrides. *)
Theorem cfg_token_replaces_overrides
    (defaults overrides doc : dict) (a : string) (rest : list string) :
  startswith a "cfg=" = true ->
  yaml_load E (last_item (split "=" a) "") = Ok doc ->
  let path := last_item (split "=" a) "" in
  let overrides' := delete "cfg" doc in
  parse_token E defaults overrides a =
    Run [LogInfo (MsgOverriding (DEFAULT_CONFIG E) path)] (Ok (Next overrides')) /\
  (forall k, overrides' !! k = if decide (k = "cfg") then None else doc !! k) /\
  loop E defaults overrides (a :: rest) =
    (log (MsgOverriding (DEFAULT_CONFIG E) path);;
     run_config E defaults overrides';;
     loop E defaults overrides' rest).
Proof.
  intros Hcfg Hdoc path overrides'.
  assert (parse_token E defaults overrides a =
          Run [LogInfo (MsgOverriding (DEFAULT_CONFIG E) path)] (Ok (Next overrides')))
    as Hparse.
  { unfold parse_token. rewrite (startswith_cfg_contains a Hcfg), Hcfg.
    cbv zeta. rewrite Hdoc. unfold mbind, M_bind, bind. simpl.
    now rewrite without_cfg. }
  split; [exact Hparse|split].
  - intros k. unfold overrides'. case_decide as Hk.
    + subst. apply lookup_delete_eq.
    + now apply lookup_delete_ne.
  - simpl. rewrite Hparse. reflexivity.
Qed.

Lemma is_False_spec (d : value) : is_False d = true <-> d = VBool false.
Proof.
  split; [|now intros ->].
  destruct d as [|[]| | | | |]; simpl; intros H; try discriminate; reflexivity.
Qed.

(** C8. A bare token (no [=], not a task, a mode or a special command) that
    is a key of the defaults sets its override to [True] when its default
    value is the boolean [False], and raises the missing-[=] syntax error
    when its default is anything else. *)
Theorem bare_key_flag_or_error (defaults overrides : dict) (a : string) (d : value) :
  contains "=" a = false ->
  a ∉ tasks -> a ∉ modes -> special_modes E a = None ->
  defaults !! a = Some d ->
  (d = VBool false ->
   parse_token E defaults overrides a = mret (Next (<[a := VBool true]> overrides))) /\
  (d <> VBool false ->
   parse_token E defaults overrides a = raise (SyntaxError (MissingEquals a d))).
Proof.
  intros Heq Ht Hm Hs Hd.
  assert (parse_token E defaults overrides a =
          if is_False d then mret (Next (<[a := VBool true]> overrides))
          else raise (SyntaxError (MissingEquals a d))) as Hparse.
  { unfold parse_token.
    rewrite Heq, (bool_decide_eq_false_2 _ Ht), (bool_decide_eq_false_2 _ Hm), Hs, Hd.
    reflexivity. }
  rewrite Hparse. split.
  - intros ->. reflexivity.
  - intros Hne. destruct (is_False d) eqn:Hf; [|reflexivity].
    now apply is_False_spec in Hf.
Qed.

(** C10. The test that guards the help-and-return branch, [len(sys.argv) ==
    -1], is false for every argument vector, so [entrypoint] always goes on
    to process its tokens. *)
Theorem help_branch_unreachable (sys_argv : list string) :
  (Z.of_nat (length sys_argv) =? -1)%Z = false /\
  entrypoint E sys_argv = dispatch E stub_args.
Proof.
  assert ((Z.of_nat (length sys_argv) =? -1)%Z = false) as H
    by (apply Z.eqb_neq; lia).
  split; [exact H|]. unfold entrypoint. now rewrite H.
Qed.

End Dispatch.

(** C10 at work: even the empty argument vector goes to the token loop. *)
Lemma help_branch_unreachable_witness :
  Configs.entrypoint Demo.world [] = Configs.dispatch Demo.world ["train"].
Proof. apply (help_branch_unreachable Demo.world []). Defined.

(** C7 at work: [imgsz=320] followed by [cfg=custom.yaml] leaves exactly the
    two entries of the document other than [cfg]. *)
Lemma cfg_token_replaces_overrides_witness :
  Configs.parse_token Demo.world Demo.defaults {[ "imgsz" := VStr "320" ]} "cfg=custom.yaml" =
  Run [LogInfo (MsgOverriding "default.yaml" "custom.yaml")]
      (Ok (Configs.Next
             (<["epochs" := VInt 3]> {[ "data" := VStr "coco128.yaml" ]}))).
Proof.
  destruct (cfg_token_replaces_overrides Demo.world Demo.defaults
              {[ "imgsz" := VStr "320" ]} Demo.custom "cfg=custom.yaml" []
              eq_refl eq_refl) as [H _].
  rewrite H. vm_compute. reflexivity.
Defined.

(** C8 at work: the bare token [show], whose default is [False], becomes the
    override [show=True]; the bare token [epochs] is a syntax error. *)

(** C8 at work: the bare token [show], whose default is [False], becomes the
    override [show=True]; the bare token [epochs] is a syntax error. *)
Lemma bare_key_flag_or_error_witness :
  Configs.parse_token Demo.world Demo.defaults ∅ "show" =
    mret (Configs.Next {[ "show" := VBool true ]}) /\
  Configs.parse_token Demo.world Demo.defaults ∅ "epochs" =
    raise (SyntaxError (MissingEquals "epochs" (VInt 100))).
Proof.
  split.
  - apply (bare_key_flag_or_error Demo.world Demo.defaults ∅ "show" (VBool false)).
    all: first [by_computation | vm_refl].
  - apply (bare_key_flag_or_error Demo.world Demo.defaults ∅ "epochs" (VInt 100)).
    all: first [by_computation | discriminate | vm_refl].
Defined.

(** ** How many operations one dispatch invokes *)

Section Invocations.

Import Configs.

Variable E : env.

Lemma invocations_app (t1 t2 : list event) :
  invocations (t1 ++ t2) = (invocations t1 ++ invocations t2)%list.
Proof. apply omap_app. Qed.

Lemma invocations_logs {A} (f : A -> message) (xs : list A) :
  invocations ((fun x => LogInfo (f x)) <$> xs) = [].
Proof. induction xs as [|x xs IH]; simpl; [reflexivity|exact IH]. Qed.

Lemma bind_trace_fail {A B} (m : M A) (k : A -> M B) :
  (forall a, result m <> Ok a) ->
  trace (m ≫= k) = trace m /\ forall b, result (m ≫= k) <> Ok b.
Proof.
  unfold mbind, M_bind, bind. intros H.
  destruct (result m) as [a| |] eqn:Hr; simpl; [now destruct (H a)|split; congruence..].
Qed.

Lemma copy_invokes_nothing : invocations (trace (copy_default_config E)) = [].
Proof.
  unfold copy_default_config, mbind, M_bind, bind. simpl.
  destruct (copy2 E _ _); reflexivity.
Qed.

Lemma special_invokes_nothing (a : string) (run : M unit) :
  special_modes E a = Some run -> invocations (trace run) = [].
Proof.
  unfold special_modes.
  repeat (destruct (String.eqb a _);
          [intros [= <-]; first [reflexivity | exact copy_invokes_nothing]|]).
  discriminate.
Qed.

(** Classifying a token calls no operation. *)
Lemma parse_token_invokes_nothing (defaults overrides : dict) (a : string) :
  invocations (trace (parse_token E defaults overrides a)) = [].
Proof.
  unfold parse_token.
  destruct (contains "=" a).
  - destruct (startswith a "cfg=").
    + unfold mbind, M_bind, bind. simpl.
      destruct (yaml_load E _); reflexivity.
    + destruct (split "=" a) as [|k [|v [|? ?]]]; reflexivity.
  - destruct (bool_decide (a ∈ tasks)); [reflexivity|].
    destruct (bool_decide (a ∈ modes)); [reflexivity|].
    destruct (special_modes E a) as [run|] eqn:Hs.
    + apply special_invokes_nothing in Hs.
      unfold mbind, M_bind, bind.
      destruct (result run); simpl; rewrite ?app_nil_r; exact Hs.
    + destruct (defaults !! a) as [d|]; [destruct (is_False d)|]; reflexivity.
Qed.

(** A token that is no special command never ends the loop early. *)
Lemma parse_token_next (defaults overrides : dict) (a : string) (fl : flow) :
  special_modes E a = None ->
  result (parse_token E defaults overrides a) = Ok fl ->
  exists overrides', fl = Next overrides'.
Proof.
  unfold parse_token. intros Hs.
  destruct (contains "=" a).
  - destruct (startswith a "cfg=").
    + unfold mbind, M_bind, bind. simpl.
      destruct (yaml_load E _); simpl; intros [= <-]; eauto.
    + destruct (split "=" a) as [|k [|v [|? ?]]]; simpl; intros [= <-]; eauto.
  - destruct (bool_decide (a ∈ tasks)); [intros [= <-]; eauto|].
    destruct (bool_decide (a ∈ modes)); [intros [= <-]; eauto|].
    rewrite Hs.
    destruct (defaults !! a) as [d|]; [destruct (is_False d)|];
      simpl; intros [= <-]; eauto.
Qed.

(** The dispatch block either fails before any call or makes exactly one. *)
Lemma run_config_invokes (defaults overrides : dict) :
  match result (run_config E defaults overrides) with
  | Ok _ => exists op, invocations (trace (run_config E defaults overrides)) = [op]
  | _ => invocations (trace (run_config E defaults overrides)) = []
  end.
Proof.
  unfold run_config. rewrite get_config_run.
  unfold report_lines.
  destruct (bool_decide (mismatched_keys (dom defaults) (dom overrides) = [])).
  2:{ unfold mbind, M_bind, bind. simpl. apply invocations_logs. }
  unfold mbind, M_bind, bind. simpl.
  set (logs := _ <$> _).
  assert (invocations logs = []) as Hlogs by apply invocations_logs.
  unfold getattr.
  destruct ((overrides ∪ defaults) !! "task") as [t|]; simpl;
    [|now rewrite app_nil_r].
  assert (forall m : M (option string),
            m = module_for t ->
            match result m with
            | Raise _ | Exit => trace m = []
            | Ok _ => trace m = []
            end) as Hmod.
  { intros m ->. destruct t; reflexivity. }
  specialize (Hmod _ eq_refl).
  destruct (module_for t) as [tm [[module|]| |]]; simpl in *; subst tm; simpl;
    rewrite ?app_nil_r; try exact Hlogs.
  destruct ((overrides ∪ defaults) !! "mode") as [mode|]; simpl;
    rewrite ?app_nil_r; try exact Hlogs.
  assert (trace (func_for module mode) = []) as Hfun by (destruct mode; reflexivity).
  destruct (func_for module mode) as [tf [[func|]| |]]; simpl in *; subst tf; simpl;
    rewrite ?app_nil_r; try exact Hlogs.
  exists func. rewrite invocations_app, Hlogs. reflexivity.
Qed.

(** X6. Every token that falls through the classification triggers one
    call: a dispatch that completes without meeting a special command has
    invoked as many operations as it was given tokens. *)
Lemma loop_invokes_per_token (defaults : dict) (args : list string) :
  forall overrides,
    Forall (fun a => special_modes E a = None) args ->
    result (loop E defaults overrides args) = Ok tt ->
    length (invocations (trace (loop E defaults overrides args))) = length args.
Proof.
  induction args as [|a args IH]; intros overrides Hsp Hok; [reflexivity|].
  apply Forall_cons in Hsp as [Ha Hsp].
  simpl in *.
  pose proof (parse_token_invokes_nothing defaults overrides a) as Hp.
  pose proof (parse_token_next defaults overrides a) as Hn.
  unfold mbind, M_bind, bind in *.
  destruct (parse_token E defaults overrides a) as [tp [fl| |]]; simpl in *;
    try discriminate.
  destruct (Hn fl Ha eq_refl) as [overrides' ->].
  pose proof (run_config_invokes defaults overrides') as Hr.
  destruct (run_config E defaults overrides') as [tr [[]| |]]; simpl in *;
    try discriminate.
  destruct Hr as [op Hr].
  specialize (IH overrides' Hsp).
  destruct (loop E defaults overrides' args) as [tl [[]| |]]; simpl in *;
    try discriminate.
  rewrite !invocations_app, Hp, Hr. simpl. f_equal. now apply IH.
Qed.

End Invocations.

(** The loop on a two-token list: [detect train] completes and calls the
    training operation twice, once after each token; with no token at all it
    completes without any call. *)
Lemma dispatch_detect_train_invokes_twice :
  result (Configs.dispatch Demo.world ["detect"; "train"]) = Ok tt /\
  invocations (trace (Configs.dispatch Demo.world ["detect"; "train"])) =
    [ModuleOp "detect" "train"; ModuleOp "detect" "train"] /\
  result (Configs.dispatch Demo.world []) = Ok tt /\
  invocations (trace (Configs.dispatch Demo.world [])) = [].
Proof. repeat split; vm_refl. Qed.

(** The token list bound in the source, [['train']], gives one call. *)
Lemma entrypoint_stub_invokes_once :
  invocations (trace (Configs.entrypoint Demo.world ["yolo"])) = [ModuleOp "detect" "train"].
Proof. vm_refl. Qed.

(** ** The facade *)

Section Facade.

Import Engine.

Variable E : env.

Lemma get_config_only_logs (config : Configs.config_src) (kwargs : dict) (e : event) :
  e ∈ trace (Configs.get_config E config kwargs) -> exists m, e = LogInfo m.
Proof.
  assert (forall D, e ∈ trace (Configs.get_config E (Configs.FromDict D) kwargs) ->
                    exists m, e = LogInfo m) as Hdict.
  { intros D. rewrite get_config_run. unfold report_lines. simpl.
    intros H. apply list_elem_of_fmap in H as (k & -> & _). eauto. }
  destruct config as [path|D]; [|apply Hdict].
  destruct (yaml_load E path) as [D| |] eqn:Hl.
  - rewrite (get_config_file E path D kwargs Hl). apply Hdict.
  - unfold Configs.get_config. rewrite Hl. simpl. intros H. now apply elem_of_nil in H.
  - unfold Configs.get_config. rewrite Hl. simpl. intros H. now apply elem_of_nil in H.
Qed.

Lemma val_bound (self : YOLO) (data : value) (kwargs : dict) (net : net) :
  model self = Some net ->
  val E self data kwargs =
  (args ← Configs.get_config E (Configs.FromFile (DEFAULT_CONFIG E)) kwargs;
   validator ← the_class (ValidatorClass self);
   emit (NewValidator validator (val_args self data args));;
   emit (RunValidator validator net)).
Proof. unfold val. now intros ->. Qed.

(** C9. Without a model, [val] raises "model not initialized!" and nothing
    else happens: no validator is built or run.  Whenever a validator is
    built, its configuration has [data] equal to the [data] argument and
    [task] equal to the facade's task; and with a model bound, a validator
    class set and the keyword arguments accepted by the merge, the validator
    is built with that configuration and run on the model. *)
Theorem val_requires_model (self : YOLO) (data : value) (kwargs : dict) :
  (model self = None -> val E self data kwargs = raise not_initialized) /\
  (forall cls args,
     NewValidator cls args ∈ trace (val E self data kwargs) ->
     is_Some (model self) /\
     args !! "data" = Some data /\ args !! "task" = Some (task self)) /\
  (forall net cls merged,
     model self = Some net -> ValidatorClass self = Some cls ->
     result (Configs.get_config E (Configs.FromFile (DEFAULT_CONFIG E)) kwargs) = Ok merged ->
     result (val E self data kwargs) = Ok tt /\
     trace (val E self data kwargs) =
       (trace (Configs.get_config E (Configs.FromFile (DEFAULT_CONFIG E)) kwargs) ++
        [NewValidator cls (val_args self data merged); RunValidator cls net])%list).
Proof.
  split; [|split].
  - unfold val. now intros ->.
  - intros cls args Hin.
    destruct (model self) as [net|] eqn:Hm.
    2:{ unfold val in Hin. rewrite Hm in Hin. now apply elem_of_nil in Hin. }
    split; [eauto|].
    rewrite (val_bound self data kwargs net Hm) in Hin.
    pose proof (get_config_only_logs (Configs.FromFile (DEFAULT_CONFIG E)) kwargs
                  (NewValidator cls args)) as Hlogs.
    unfold mbind, M_bind, bind in Hin.
    destruct (Configs.get_config E _ kwargs) as [tg [merged| |]]; simpl in *;
      try (destruct (Hlogs Hin) as [m Hm']; discriminate).
    apply elem_of_app in Hin as [Hin|Hin];
      [destruct (Hlogs Hin) as [m Hm']; discriminate|].
    destruct (ValidatorClass self) as [v|]; simpl in Hin;
      [|now apply elem_of_nil in Hin].
    rewrite !elem_of_cons, elem_of_nil in Hin.
    destruct Hin as [[= -> ->]|[[=]|[]]].
    unfold val_args. now rewrite lookup_insert_ne, !lookup_insert_eq.
  - intros net cls merged Hm Hc Hg.
    rewrite (val_bound self data kwargs net Hm), Hc.
    unfold mbind, M_bind, bind. rewrite Hg. simpl. split; reflexivity.
Qed.






End Facade.

(** C9 at work: on a facade without a model nothing is built; on a loaded
    one the validator receives the given [data] and the facade's task. *)
Lemma val_requires_model_witness :
  Engine.val Demo.world (Engine.init "v8") (VStr "coco128.yaml") ∅ =
    raise Engine.not_initialized /\
  trace (Engine.val Demo.world Demo.loaded (VStr "coco128.yaml") {[ "imgsz" := VInt 320 ]}) =
    [NewValidator "yolo.v8.segment.SegmentationValidator"
       (<["data" := VStr "coco128.yaml"]>
          (<["task" := VStr "segment"]> (<["imgsz" := VInt 320]> Demo.defaults)));
     RunValidator "yolo.v8.segment.SegmentationValidator" (Loaded "last.pt")].
Proof.
  split.
  - now apply (val_requires_model Demo.world (Engine.init "v8") (VStr "coco128.yaml") ∅).
  - destruct (val_requires_model Demo.world Demo.loaded (VStr "coco128.yaml")
                {[ "imgsz" := VInt 320 ]}) as (_ & _ & Hrun).
    destruct (Hrun (Loaded "last.pt") "yolo.v8.segment.SegmentationValidator"
                (<["imgsz" := VInt 320]> Demo.defaults)) as [_ Htrace];
      [reflexivity|reflexivity|vm_refl|].
    rewrite Htrace. vm_refl.
Defined.



(** ** Resuming *)

Section Resume.

Import Engine.

Variable E : env.

Lemma given_some (o : option string) :
  given o = true -> exists s, o = Some s /\ s <> "".
Proof.
  destruct o as [s|]; simpl; [|discriminate].
  destruct s; simpl; [discriminate|]. intros _. eexists. split; [reflexivity|discriminate].
Qed.

(** The class lookup writes nothing; it returns the classes or fails. *)
Lemma guess_ops_silent (self : YOLO) (task : value) :
  trace (_guess_ops_from_task E self task) = [].
Proof.
  unfold _guess_ops_from_task.
  destruct task as [| | | |t| |]; try reflexivity.
  destruct (MODEL_MAP t) as [[[[m tl] vl] pl]|]; [|reflexivity].
  unfold mbind, M_bind, bind. simpl.
  destruct (py_eval E _); simpl; [|reflexivity..].
  destruct (py_eval E _); simpl; [|reflexivity..].
  destruct (py_eval E _); reflexivity.
Qed.

Lemma guess_ops_run (self : YOLO) (task : value) (o : outcome (string * string * string * string)) :
  result (_guess_ops_from_task E self task) = o ->
  _guess_ops_from_task E self task = Run [] o.
Proof.
  intros <-. pose proof (guess_ops_silent self task) as Ht.
  destruct (_guess_ops_from_task E self task) as [t r]. simpl in *. now subst.
Qed.

Lemma guess_ops_registered (self : YOLO) (t : string) (ops : string * string * string * string) :
  result (_guess_ops_from_task E self (VStr t)) = Ok ops -> is_Some (MODEL_MAP t).
Proof.
  unfold _guess_ops_from_task.
  destruct (MODEL_MAP t) as [x|]; [eauto|discriminate].
Qed.

(** X15. With no task argument ([None] or ['']), the task comes from the
    checkpoint: when the classes of its recorded [task], lower-cased,
    resolve, the trainer of that task is built with that task and with the
    checkpoint path as resume target, and started. *)
Lemma resume_reads_checkpoint
    (self : YOLO) (task model : option string) (c : checkpoint) (t : string)
    (ops : string * string * string * string) :
  given task = false ->
  torch_load E model = Ok c ->
  train_args c !! "task" = Some (VStr t) ->
  result (_guess_ops_from_task E self (VStr (lower t))) = Ok ops ->
  exists self',
    trace (resume E self task model) =
      [TorchLoad model;
       NewTrainer ops.1.1.2 (resume_overrides (lower t) model);
       TrainerTrain ops.1.1.2] /\
    result (resume E self task model) = Ok self' /\
    trainer self' = Some (Trainer ops.1.1.2 (resume_overrides (lower t) model) None).
Proof.
  intros Hg Hl Ht Hops. apply guess_ops_run in Hops.
  unfold resume. rewrite Hg.
  remember (_guess_ops_from_task E self) as g eqn:Hgdef.
  unfold mbind, M_bind, bind. simpl. rewrite Hl. simpl.
  unfold ckpt_task. rewrite Ht. simpl. rewrite Hops.
  destruct ops as [[[m tr] v] p]. simpl.
  eexists. repeat split; reflexivity.
Qed.

(** X26. With a task argument, the checkpoint is never opened.  When the
    classes of the lower-cased argument resolve, the trainer of that task is
    built with it and started, and that is all that happens; when their
    resolution fails, so does [resume], before any trainer is built. *)
Lemma resume_task_argument_first
    (self : YOLO) (task model : option string) (t : string) :
  task = Some t -> t <> "" ->
  (forall ops,
     result (_guess_ops_from_task E self (VStr (lower t))) = Ok ops ->
     trace (resume E self task model) =
       [NewTrainer ops.1.1.2 (resume_overrides (lower t) model);
        TrainerTrain ops.1.1.2]) /\
  (forall e,
     is_Some (MODEL_MAP (lower t)) ->
     result (_guess_ops_from_task E self (VStr (lower t))) = Raise e ->
     resume E self task model = raise e).
Proof.
  intros -> Hne.
  assert (given (Some t) = true) as Hg by (destruct t; [done|reflexivity]).
  split.
  - intros ops Hops.
    pose proof (guess_ops_registered self (lower t) ops Hops) as Hmap.
    apply guess_ops_run in Hops.
    unfold resume. rewrite Hg. cbn [default].
    rewrite (bool_decide_eq_true_2 _ Hmap).
    remember (_guess_ops_from_task E self) as g eqn:Hgdef.
    unfold mbind, M_bind, bind. simpl. rewrite Hops.
    destruct ops as [[[m tr] v] p]. reflexivity.
  - intros e Hmap Hops. apply guess_ops_run in Hops.
    unfold resume. rewrite Hg. cbn [default].
    rewrite (bool_decide_eq_true_2 _ Hmap).
    remember (_guess_ops_from_task E self) as g eqn:Hgdef.
    unfold mbind, M_bind, bind. simpl. now rewrite Hops.
Qed.

End Resume.

(** C1 on a concrete call: the checkpoint [last.pt] records the task
    "segment", the call passes [task="detect"] with [model="last.pt"], and
    the trainer is started for "detect" without the checkpoint being read. *)
Lemma resume_task_beats_checkpoint :
  torch_load Demo.world (Some "last.pt") = Ok Demo.segment_ckpt /\
  train_args Demo.segment_ckpt !! "task" = Some (VStr "segment") /\
  trace (Engine.resume Demo.world (Engine.init "v8") (Some "detect") (Some "last.pt")) =
    [NewTrainer "yolo.v8.detect.DetectionTrainer"
       (resume_overrides "detect" (Some "last.pt"));
     TrainerTrain "yolo.v8.detect.DetectionTrainer"].
Proof. repeat split; vm_refl. Qed.

(** X15 at work: the same checkpoint without a task argument gives the
    task "segment". *)
Lemma resume_from_checkpoint_example :
  trace (Engine.resume Demo.world (Engine.init "v8") None (Some "last.pt")) =
    [TorchLoad (Some "last.pt");
     NewTrainer "yolo.v8.segment.SegmentationTrainer"
       (resume_overrides "segment" (Some "last.pt"));
     TrainerTrain "yolo.v8.segment.SegmentationTrainer"].
Proof.
  destruct (resume_reads_checkpoint Demo.world (Engine.init "v8") None (Some "last.pt")
              Demo.segment_ckpt "segment"
              ("SegmentationModel", "yolo.v8.segment.SegmentationTrainer",
               "yolo.v8.segment.SegmentationValidator",
               "yolo.v8.segment.SegmentationPredictor"))
    as (self' & Htrace & _); [vm_refl..|].
  exact Htrace.
Defined.

(** * Further properties of the dispatcher *)

Section Tokens.

Import Configs.

Variable E : env.

Lemma append_cons (c : ascii) (k s : string) :
  String.append (String c k) s = String c (String.append k s).
Proof. reflexivity. Qed.

Lemma contains_append (c : ascii) (k s : string) :
  contains c (String.append k s) = contains c k || contains c s.
Proof.
  induction k as [|d k IH]; [reflexivity|].
  rewrite append_cons. simpl. rewrite IH. apply orb_assoc.
Qed.

(** Splitting at the first separator. *)
Lemma split_head (sep : ascii) (k v : string) :
  contains sep k = false ->
  split sep (String.append k (String sep v)) = k :: split sep v.
Proof.
  induction k as [|c k IH]; intros Hk.
  - change (String.append "" (String sep v)) with (String sep v). simpl.
    now rewrite Ascii.eqb_refl.
  - rewrite append_cons. simpl in *.
    destruct (Ascii.eqb c sep); [discriminate|].
    now rewrite (IH Hk).
Qed.

Lemma split_length (sep : ascii) (v : string) :
  contains sep v = true -> 2 <= length (split sep v).
Proof.
  induction v as [|c v IH]; simpl; [discriminate|].
  destruct (Ascii.eqb c sep); simpl.
  - intros _. destruct v; simpl; [lia|]. destruct (Ascii.eqb _ sep); [simpl; lia|].
    destruct (split sep v); simpl; lia.
  - intros H. specialize (IH H). destruct (split sep v); simpl in *; lia.
Qed.

Lemma token_has_equals (k v : string) :
  contains "=" (String.append k (String "=" v)) = true.
Proof. rewrite contains_append. simpl. apply orb_true_r. Qed.

(** A token whose key is not [cfg] does not start with [cfg=]. *)
Lemma other_key_not_cfg (k v : string) :
  contains "=" k = false -> k <> "cfg" ->
  startswith (String.append k (String "=" v)) "cfg=" = false.
Proof.
  intros Hk Hne.
  destruct (startswith _ "cfg=") eqn:Hs; [|reflexivity].
  apply startswith_app in Hs as [r Hr].
  apply (f_equal (split "=")) in Hr.
  rewrite (split_head "=" k v Hk) in Hr.
  change (String.append "cfg=" r) with (String.append "cfg" (String "=" r)) in Hr.
  rewrite (split_head "=" "cfg" r eq_refl) in Hr.
  injection Hr as Hk' _. contradiction.
Qed.

(** X1. A token [k=v] with one [=] and a key other than [cfg] sets
    [overrides[k]] to the text [v]: the value stays a string, whatever it
    spells, and the other overrides are kept. *)
Theorem key_value_token_sets_string (defaults overrides : dict) (k v : string) :
  contains "=" k = false -> contains "=" v = false -> k <> "cfg" ->
  parse_token E defaults overrides (String.append k (String "=" v)) =
  mret (Next (<[k := VStr v]> overrides)).
Proof.
  intros Hk Hv Hne. unfold parse_token.
  rewrite token_has_equals.
  rewrite (other_key_not_cfg k v Hk Hne), (split_head "=" k v Hk).
  now rewrite (split_without "=" v Hv).
Qed.

(** X2. A token with a second [=] (and a key other than [cfg]) cannot be
    unpacked into key and value: the dispatch stops with [ValueError]. *)
Theorem second_equals_is_value_error (defaults overrides : dict) (k v : string) :
  contains "=" k = false -> contains "=" v = true -> k <> "cfg" ->
  parse_token E defaults overrides (String.append k (String "=" v)) = raise ValueError.
Proof.
  intros Hk Hv Hne. unfold parse_token.
  rewrite token_has_equals.
  rewrite (other_key_not_cfg k v Hk Hne), (split_head "=" k v Hk).
  pose proof (split_length "=" v Hv) as Hlen.
  destruct (split "=" v) as [|a [|b l]]; simpl in Hlen; [lia|lia|reflexivity].
Qed.

(** Settle the three facts below for one special command. *)
Ltac bare_name := intros _; split; [reflexivity|split; by_computation].

Lemma special_is_bare (a : string) (run : M unit) :
  special_modes E a = Some run ->
  contains "=" a = false /\ (a ∉ tasks) /\ (a ∉ modes).
Proof.
  unfold special_modes.
  destruct (String.eqb_spec a "help") as [->|_]; [bare_name|].
  destruct (String.eqb_spec a "checks") as [->|_]; [bare_name|].
  destruct (String.eqb_spec a "version") as [->|_]; [bare_name|].
  destruct (String.eqb_spec a "settings") as [->|_]; [bare_name|].
  destruct (String.eqb_spec a "copy-config") as [->|_]; [bare_name|].
  discriminate.
Qed.

(** X3. A special command ends the dispatch on the spot: its action is all
    that happens for it, the tokens after it are never looked at, and no
    configuration is merged and no operation called on its account. *)
Theorem special_command_short_circuits
    (defaults overrides : dict) (a : string) (run : M unit) (rest : list string) :
  special_modes E a = Some run ->
  loop E defaults overrides (a :: rest) = run /\
  invocations (trace run) = [].
Proof.
  intros Hs. split; [|exact (special_invokes_nothing E a run Hs)].
  destruct (special_is_bare a run Hs) as (Heq & Ht & Hm).
  simpl. unfold parse_token.
  rewrite Heq, (bool_decide_eq_false_2 _ Ht), (bool_decide_eq_false_2 _ Hm), Hs.
  unfold mbind, M_bind, bind.
  destruct run as [t [[]| |]]; simpl; rewrite ?app_nil_r; reflexivity.
Qed.

End Tokens.

(** X1 at work: [imgsz=320] stores the text "320". *)
Lemma key_value_token_sets_string_witness :
  Configs.parse_token Demo.world Demo.defaults ∅ "imgsz=320" =
  mret (Configs.Next {[ "imgsz" := VStr "320" ]}).
Proof.
  apply (key_value_token_sets_string Demo.world Demo.defaults ∅ "imgsz" "320");
    [reflexivity|reflexivity|discriminate].
Defined.

(** X2 at work: [name=a=b] is refused. *)
Lemma second_equals_is_value_error_witness :
  Configs.parse_token Demo.world Demo.defaults ∅ "name=a=b" = raise ValueError.
Proof.
  apply (second_equals_is_value_error Demo.world Demo.defaults ∅ "name" "a=b");
    [reflexivity|reflexivity|discriminate].
Defined.

(** X3 at work: in [version detect train] only the version is printed. *)
Lemma special_command_short_circuits_witness :
  Configs.loop Demo.world Demo.defaults ∅ ["version"; "detect"; "train"] =
  log (MsgVersion "8.0.0").
Proof.
  apply (special_command_short_circuits Demo.world Demo.defaults ∅ "version"
           (log (MsgVersion "8.0.0")) ["detect"; "train"]).
  reflexivity.
Defined.

(** ** Resolving and calling the operation *)

Section Resolve.

Import Configs.

Variable E : env.

Lemma get_config_accepts (D O : dict) :
  (forall k, is_Some (O !! k) -> is_Some (D !! k)) ->
  get_config E (FromDict D) O = mret (O ∪ D).
Proof.
  intros Hkeys. rewrite get_config_run. unfold report_lines.
  apply keys_subset, mismatched_nil in Hkeys. rewrite Hkeys. reflexivity.
Qed.

Lemma get_config_rejects (D O : dict) :
  ~ (forall k, is_Some (O !! k) -> is_Some (D !! k)) ->
  get_config E (FromDict D) O = Run (report_lines E D O) Exit.
Proof.
  intros Hkeys. rewrite get_config_run.
  rewrite bool_decide_eq_false_2; [reflexivity|].
  intros Hnil. now apply Hkeys, keys_subset, mismatched_nil.
Qed.

Lemma run_config_call (defaults overrides : dict) (t : string) (mode : value)
    (op : operation) :
  (forall k, is_Some (overrides !! k) -> is_Some (defaults !! k)) ->
  (overrides ∪ defaults) !! "task" = Some (VStr t) -> t ∈ tasks ->
  (overrides ∪ defaults) !! "mode" = Some mode ->
  func_for t mode = mret (Some op) ->
  run_config E defaults overrides = emit (Invoke op (overrides ∪ defaults)).
Proof.
  intros Hkeys Htask Ht Hmode Hfunc. unfold run_config.
  rewrite (get_config_accepts _ _ Hkeys), bind_ret.
  unfold getattr. rewrite Htask, bind_ret.
  unfold module_for. rewrite (bool_decide_eq_true_2 _ Ht), bind_ret.
  rewrite Hmode, bind_ret, Hfunc, bind_ret. reflexivity.
Qed.

(** X4. With every override key known, a task among the three and a mode
    among the four, the dispatch block makes exactly one call and passes it
    the merged configuration: the exporter for mode [export], whatever the
    task, and otherwise the function of that mode in the task's module. *)
Theorem run_config_resolves (defaults overrides : dict) (t m : string) :
  (forall k, is_Some (overrides !! k) -> is_Some (defaults !! k)) ->
  (overrides ∪ defaults) !! "task" = Some (VStr t) -> t ∈ tasks ->
  (overrides ∪ defaults) !! "mode" = Some (VStr m) -> m ∈ modes ->
  run_config E defaults overrides =
  emit (Invoke (if String.eqb m "export" then ExporterExport else ModuleOp t m)
               (overrides ∪ defaults)).
Proof.
  intros Hkeys Htask Ht Hmode Hm.
  apply (run_config_call defaults overrides t (VStr m)); try assumption.
  unfold modes in Hm. rewrite !elem_of_cons, elem_of_nil in Hm.
  destruct Hm as [->|[->|[->|[->|Hm]]]]; [reflexivity..|destruct Hm].
Qed.

(** X5. The dispatch block checks in a fixed order.  An override key that
    is not a default ends the run in [sys.exit()] whatever task and mode are;
    with the keys accepted, a task outside the three raises the invalid-task
    syntax error whatever the mode is; only then is a mode outside the four
    reported.  In none of these cases is an operation called. *)
Theorem run_config_check_order (defaults overrides : dict) :
  (~ (forall k, is_Some (overrides !! k) -> is_Some (defaults !! k)) ->
   result (run_config E defaults overrides) = Exit /\
   invocations (trace (run_config E defaults overrides)) = []) /\
  (forall t,
     (forall k, is_Some (overrides !! k) -> is_Some (defaults !! k)) ->
     (overrides ∪ defaults) !! "task" = Some (VStr t) -> t ∉ tasks ->
     run_config E defaults overrides = raise (SyntaxError (InvalidTask (VStr t)))) /\
  (forall t m,
     (forall k, is_Some (overrides !! k) -> is_Some (defaults !! k)) ->
     (overrides ∪ defaults) !! "task" = Some (VStr t) -> t ∈ tasks ->
     (overrides ∪ defaults) !! "mode" = Some (VStr m) -> m ∉ modes ->
     run_config E defaults overrides = raise (SyntaxError (InvalidMode (VStr m)))).
Proof.
  split; [|split].
  - intros Hkeys. unfold run_config.
    rewrite (get_config_rejects _ _ Hkeys). simpl. split; [reflexivity|].
    unfold report_lines. apply invocations_logs.
  - intros t Hkeys Htask Ht. unfold run_config.
    rewrite (get_config_accepts _ _ Hkeys), bind_ret.
    unfold getattr. rewrite Htask, bind_ret.
    unfold module_for. rewrite (bool_decide_eq_false_2 _ Ht), bind_ret. reflexivity.
  - intros t m Hkeys Htask Ht Hmode Hm. unfold run_config.
    rewrite (get_config_accepts _ _ Hkeys), bind_ret.
    unfold getattr. rewrite Htask, bind_ret.
    unfold module_for. rewrite (bool_decide_eq_true_2 _ Ht), bind_ret.
    rewrite Hmode, bind_ret.
    assert (func_for t (VStr m) = mret None) as ->; [|reflexivity].
    unfold func_for, modes in *. rewrite !not_elem_of_cons in Hm.
    destruct Hm as (Ht' & Hv & Hp & He & _).
    destruct (String.eqb_spec m "export") as [->|_]; [contradiction|].
    rewrite bool_decide_eq_false_2; [reflexivity|].
    rewrite !not_elem_of_cons. repeat split; try assumption. apply not_elem_of_nil.
Qed.

End Resolve.

(** X4 at work: with [mode=export] a segment task still goes to the
    exporter. *)
Lemma run_config_resolves_witness :
  let overrides : dict := <["mode" := VStr "export"]> {[ "task" := VStr "segment" ]} in
  Configs.run_config Demo.world Demo.defaults overrides =
  emit (Invoke ExporterExport (overrides ∪ Demo.defaults)).
Proof.
  intros overrides.
  apply (run_config_resolves Demo.world Demo.defaults overrides "segment" "export").
  - intros k Hk.
    assert (k ∈ dom overrides) as Hin by now apply elem_of_dom.
    apply elem_of_dom. revert Hin. unfold overrides.
    rewrite dom_insert_L, dom_singleton_L, elem_of_union, !elem_of_singleton.
    intros [-> | ->]; by_computation.
  - vm_refl.
  - by_computation.
  - vm_refl.
  - by_computation.
Defined.

(** X5 at work: a misspelt key wins over a bad task; a bad task wins over a
    bad mode. *)
Lemma run_config_check_order_witness :
  result (Configs.run_config Demo.world Demo.defaults
            (<["epoch" := VStr "3"]> {[ "task" := VStr "pose" ]})) = Exit /\
  Configs.run_config Demo.world Demo.defaults
    (<["mode" := VStr "tune"]> {[ "task" := VStr "pose" ]}) =
  raise (SyntaxError (InvalidTask (VStr "pose"))).
Proof.
  split.
  - destruct (run_config_check_order Demo.world Demo.defaults
                (<["epoch" := VStr "3"]> {[ "task" := VStr "pose" ]})) as (Hexit & _).
    apply Hexit. intros Hkeys.
    destruct (Hkeys "epoch") as [v Hv]; [vm_compute; eauto|].
    vm_compute in Hv. discriminate.
  - destruct (run_config_check_order Demo.world Demo.defaults
                (<["mode" := VStr "tune"]> {[ "task" := VStr "pose" ]})) as (_ & Htask & _).
    apply (Htask "pose"); [|vm_refl|by_computation].
    intros k Hk.
    assert (k ∈ dom (<["mode" := VStr "tune"]> ({[ "task" := VStr "pose" ]} : dict)))
      as Hin by now apply elem_of_dom.
    apply elem_of_dom. revert Hin.
    rewrite dom_insert_L, dom_singleton_L, elem_of_union, !elem_of_singleton.
    intros [-> | ->]; by_computation.
Defined.

(** ** What a whole dispatch calls *)

Section Calls.

Import Configs.

Variable E : env.

Lemma invoke_in_invocations (op : operation) (cfg : dict) (t : list event) :
  Invoke op cfg ∈ t -> op ∈ invocations t.
Proof.
  unfold invocations. intros H. apply list_elem_of_omap.
  exists (Invoke op cfg). split; [exact H|reflexivity].
Qed.

Lemma parse_token_no_invoke (defaults overrides : dict) (a : string)
    (op : operation) (cfg : dict) :
  Invoke op cfg ∉ trace (parse_token E defaults overrides a).
Proof.
  intros H. apply invoke_in_invocations in H.
  rewrite parse_token_invokes_nothing in H. now apply elem_of_nil in H.
Qed.

Lemma report_lines_no_invoke (D O : dict) (op : operation) (cfg : dict) :
  Invoke op cfg ∉ report_lines E D O.
Proof.
  intros H. apply invoke_in_invocations in H. unfold report_lines in H.
  rewrite invocations_logs in H. now apply elem_of_nil in H.
Qed.

(** The call made by the dispatch block carries the merged configuration. *)
Lemma run_config_invoke_cfg (defaults overrides : dict) (op : operation) (cfg : dict) :
  Invoke op cfg ∈ trace (run_config E defaults overrides) ->
  cfg = overrides ∪ defaults /\
  (forall k, is_Some (overrides !! k) -> is_Some (defaults !! k)).
Proof.
  unfold run_config. rewrite get_config_run.
  pose proof (report_lines_no_invoke defaults overrides op cfg) as Hlogs.
  destruct (bool_decide_reflect (mismatched_keys (dom defaults) (dom overrides) = []))
    as [Hnil|_].
  2:{ unfold mbind, M_bind, bind. simpl. intros H. contradiction. }
  apply mismatched_nil in Hnil.
  pose proof (proj1 (keys_subset defaults overrides) Hnil) as Hkeys.
  unfold mbind, M_bind, bind. simpl. unfold getattr.
  destruct ((overrides ∪ defaults) !! "task") as [t|]; simpl;
    [|rewrite app_nil_r; intros H; contradiction].
  assert (trace (module_for t) = []) as Hmod by (destruct t; reflexivity).
  destruct (module_for t) as [tm [[module|]| |]]; simpl in *; subst tm; simpl;
    rewrite ?app_nil_r; try (intros H; contradiction).
  destruct ((overrides ∪ defaults) !! "mode") as [mode|]; simpl;
    rewrite ?app_nil_r; try (intros H; contradiction).
  assert (trace (func_for module mode) = []) as Hfun by (destruct mode; reflexivity).
  destruct (func_for module mode) as [tf [[func|]| |]]; simpl in *; subst tf; simpl;
    rewrite ?app_nil_r; try (intros H; contradiction).
  intros H. apply elem_of_app in H as [H|H]; [contradiction|].
  apply list_elem_of_singleton in H. injection H as _ ->. split; [reflexivity|exact Hkeys].
Qed.

(** X7. However a dispatch ends, it has called at most one operation per
    token. *)
Theorem loop_invokes_at_most_per_token (defaults : dict) (args : list string) :
  forall overrides,
    length (invocations (trace (loop E defaults overrides args))) <= length args.
Proof.
  induction args as [|a args IH]; intros overrides; [simpl; lia|].
  simpl.
  pose proof (parse_token_invokes_nothing E defaults overrides a) as Hp.
  unfold mbind, M_bind, bind.
  destruct (parse_token E defaults overrides a) as [tp [[overrides'|]| |]];
    simpl in *; rewrite ?invocations_app, Hp; simpl; try lia.
  pose proof (run_config_invokes E defaults overrides') as Hr.
  specialize (IH overrides').
  destruct (run_config E defaults overrides') as [tr [[]| |]]; simpl in *;
    rewrite ?invocations_app; [destruct Hr as [op Hr]| |];
    rewrite Hr; simpl; lia.
Qed.

(** X8. Every configuration a dispatch hands to an operation has exactly
    the keys of the defaults document: overrides only ever replace values. *)
Theorem invoked_config_has_default_keys (defaults : dict) (args : list string) :
  forall overrides op cfg,
    Invoke op cfg ∈ trace (loop E defaults overrides args) ->
    dom cfg = dom defaults.
Proof.
  induction args as [|a args IH]; intros overrides op cfg; simpl.
  - intros H. now apply elem_of_nil in H.
  - pose proof (parse_token_no_invoke defaults overrides a op cfg) as Hp.
    unfold mbind, M_bind, bind.
    destruct (parse_token E defaults overrides a) as [tp [[overrides'|]| |]];
      simpl in *; rewrite ?app_nil_r; try (intros H; contradiction).
    pose proof (run_config_invoke_cfg defaults overrides' op cfg) as Hr.
    specialize (IH overrides' op cfg).
    intros H. apply elem_of_app in H as [H|H]; [contradiction|].
    assert (Invoke op cfg ∈ trace (run_config E defaults overrides') ->
            dom cfg = dom defaults) as Hdom.
    { intros Hin. destruct (Hr Hin) as [-> Hkeys].
      apply keys_subset in Hkeys. rewrite dom_union_L.
      now apply subseteq_union_1_L. }
    destruct (run_config E defaults overrides') as [tr [[]| |]]; simpl in *; auto.
    apply elem_of_app in H as [H|H]; auto.
Qed.

(** X9. Overrides that only repeat entries of the defaults change nothing:
    when every override entry is an entry of the defaults, and so when there
    are no overrides at all, [get_config] returns the defaults as they are
    and reports nothing. *)
Theorem merge_of_default_entries (D O : dict) :
  O ⊆ D -> get_config E (FromDict D) O = mret D.
Proof.
  intros Hsub. rewrite get_config_accepts.
  - now rewrite (map_subseteq_union O D Hsub).
  - intros k [v Hv]. exists v. now apply (lookup_weaken O D k v).
Qed.




(** X11. With the token list the source binds, whatever the argument vector
    and whatever mode the defaults name, the entrypoint makes one call: the
    training function of the default task, on the defaults with [mode] set
    to "train". *)
Theorem entrypoint_always_trains
    (sys_argv : list string) (defaults : dict) (t : string) :
  yaml_load E (DEFAULT_CONFIG E) = Ok defaults ->
  defaults !! "task" = Some (VStr t) -> t ∈ tasks ->
  is_Some (defaults !! "mode") ->
  entrypoint E sys_argv =
  emit (Invoke (ModuleOp t "train") (<["mode" := VStr "train"]> defaults)).
Proof.
  intros Hload Htask Ht Hmode.
  unfold entrypoint.
  assert ((Z.of_nat (length sys_argv) =? -1)%Z = false) as ->
    by (apply Z.eqb_neq; lia).
  unfold dispatch, stub_args. rewrite Hload, bind_lift_ok. cbn [loop].
  assert (parse_token E defaults ∅ "train" = mret (Next (<["mode" := VStr "train"]> ∅)))
    as -> by reflexivity.
  rewrite bind_ret.
  rewrite (run_config_call E defaults (<["mode" := VStr "train"]> ∅) t
             (VStr "train") (ModuleOp t "train")).
  - rewrite <- insert_union_l, (left_id_L ∅ (∪)). reflexivity.
  - intros k [v Hv]. destruct (decide (k = "mode")) as [->|Hne]; [exact Hmode|].
    rewrite lookup_insert_ne, lookup_empty in Hv by done. discriminate.
  - rewrite <- insert_union_l, (left_id_L ∅ (∪)), lookup_insert_ne by done. exact Htask.
  - exact Ht.
  - rewrite <- insert_union_l, (left_id_L ∅ (∪)). apply lookup_insert_eq.
  - reflexivity.
Qed.


End Calls.

(** X6 at work: three tokens, three calls. *)
Lemma loop_invokes_per_token_witness :
  length (invocations
            (trace (Configs.loop Demo.world Demo.defaults ∅ ["detect"; "train"; "show"]))) = 3.
Proof.
  apply (loop_invokes_per_token Demo.world Demo.defaults ["detect"; "train"; "show"] ∅).
  - repeat constructor.
  - vm_refl.
Defined.

(** X8 at work: the call made for [imgsz=320] gets the defaults' keys. *)
Lemma invoked_config_has_default_keys_witness :
  dom (<["imgsz" := VStr "320"]> Demo.defaults) = dom Demo.defaults.
Proof.
  apply (invoked_config_has_default_keys Demo.world Demo.defaults ["imgsz=320"] ∅
           (ModuleOp "detect" "train")).
  assert (trace (Configs.loop Demo.world Demo.defaults ∅ ["imgsz=320"]) =
          [Invoke (ModuleOp "detect" "train") (<["imgsz" := VStr "320"]> Demo.defaults)])
    as -> by vm_refl.
  now apply list_elem_of_singleton.
Defined.

(** X9 at work: passing [epochs=100], its default, gives the defaults; so
    does passing nothing. *)
Lemma merge_of_default_entries_witness :
  Configs.get_config Demo.world (Configs.FromDict Demo.defaults) {[ "epochs" := VInt 100 ]} =
    mret Demo.defaults /\
  Configs.get_config Demo.world (Configs.FromDict Demo.defaults) ∅ = mret Demo.defaults.
Proof.
  split.
  - apply (merge_of_default_entries Demo.world Demo.defaults {[ "epochs" := VInt 100 ]}).
    apply map_singleton_subseteq_l. vm_refl.
  - apply (merge_of_default_entries Demo.world Demo.defaults ∅).
    apply map_empty_subseteq.
Defined.

(** X11 at work: any command line trains the default detect task. *)
Lemma entrypoint_always_trains_witness :
  Configs.entrypoint Demo.world ["yolo"; "segment"; "val"] =
  emit (Invoke (ModuleOp "detect" "train") (<["mode" := VStr "train"]> Demo.defaults)).
Proof.
  apply (entrypoint_always_trains Demo.world ["yolo"; "segment"; "val"]
           Demo.defaults "detect").
  - reflexivity.
  - vm_refl.
  - by_computation.
  - vm_compute. eauto.
Defined.


(** ** The [copy-config] command *)

Section CopyConfig.

Import Configs.

Variable E : env.

Lemma replace_yaml_suffix (stem : string) :
  contains "." stem = false ->
  replace ".yaml" "_copy.yaml" (String.append stem ".yaml") =
  String.append stem "_copy.yaml".
Proof.
  unfold replace. induction stem as [|c stem IH]; [reflexivity|].
  simpl contains. intros H. apply orb_false_iff in H as [Hc Hs].
  rewrite !append_cons. cbn [replace_from].
  assert (String.prefix ".yaml" (String c (String.append stem ".yaml")) = false) as ->.
  { cbn [String.prefix]. destruct (ascii_dec "." c) as [<-|]; [discriminate|reflexivity]. }
  now rewrite (IH Hs).
Qed.

(** A name without [.] is left alone by the suffix replacement. *)
Lemma replace_no_dot (name : string) :
  contains "." name = false -> replace ".yaml" "_copy.yaml" name = name.
Proof.
  unfold replace. induction name as [|c name IH]; [reflexivity|].
  simpl contains. intros H. apply orb_false_iff in H as [Hc Hs].
  cbn [replace_from].
  assert (String.prefix ".yaml" (String c name) = false) as ->.
  { cbn [String.prefix]. destruct (ascii_dec "." c) as [<-|]; [discriminate|reflexivity]. }
  now rewrite (IH Hs).
Qed.

Lemma last_cons_nonempty {A} (x d : A) (l : list A) :
  1 <= length l -> List.last (x :: l) d = List.last l d.
Proof. destruct l; simpl; [lia|reflexivity]. Qed.

Lemma last_of_split (dir name : string) :
  contains "/" name = false ->
  List.last (split "/" (String.append dir (String "/" name))) "" = name.
Proof.
  intros Hn. induction dir as [|c dir IH].
  - change (String.append "" (String "/" name)) with (String "/" name).
    simpl. now rewrite (split_without "/" name Hn).
  - rewrite append_cons.
    assert (2 <= length (split "/" (String.append dir (String "/" name)))) as Hlen.
    { apply split_length. rewrite contains_append. simpl. apply orb_true_r. }
    cbn [split]. destruct (Ascii.eqb c "/").
    + rewrite last_cons_nonempty by lia. exact IH.
    + destruct (split "/" (String.append dir (String "/" name))) as [|h l];
        [simpl in Hlen; lia|].
      simpl in Hlen. rewrite !last_cons_nonempty in * by lia. exact IH.
Qed.

(** [Path(dir/name).name] is [name]. *)
Lemma path_name_of_dir (dir name : string) :
  contains "/" name = false ->
  path_name (String.append dir (String "/" name)) = name.
Proof.
  intros Hn. unfold path_name, last_item.
  destruct (String.eqb_spec (String.append dir (String "/" name)) ".") as [Heq|_].
  - apply (f_equal (contains "/")) in Heq.
    rewrite contains_append in Heq. simpl in Heq.
    rewrite orb_true_r in Heq. discriminate.
  - now apply last_of_split.
Qed.

Lemma copy_name_not_empty (stem : string) :
  String.eqb (String.append stem "_copy.yaml") "" = false.
Proof. destruct stem; reflexivity. Qed.

(** X10. For a defaults document named [<stem>.yaml], with a stem that has
    no dot, [copy-config] asks for a copy named [<stem>_copy.yaml] in the
    working directory (joined without a second separator when the directory
    ends in one, as the root does).  When the copy fails, the failure is the
    command's outcome and no notice is logged; when it returns, the notice
    with the same source and destination follows. *)
Theorem copy_default_config_destination (stem : string) :
  contains "." stem = false ->
  path_name (DEFAULT_CONFIG E) = String.append stem ".yaml" ->
  let src := DEFAULT_CONFIG E in
  let dst := path_join (cwd E) (String.append stem "_copy.yaml") in
  dst = (if ends_with "/" (cwd E)
         then cwd E ++ String.append stem "_copy.yaml"
         else cwd E ++ "/" ++ String.append stem "_copy.yaml") /\
  (forall e, copy2 E src dst = Raise e ->
             copy_default_config E = Run [CopyFile src dst] (Raise e)) /\
  (copy2 E src dst = Ok tt ->
   copy_default_config E = Run [CopyFile src dst; LogInfo (MsgCopied src dst)] (Ok tt)).
Proof.
  intros Hstem Hname src dst.
  assert (copy_default_config E =
          (emit (CopyFile src dst);; lift (copy2 E src dst);; log (MsgCopied src dst)))
    as Hrun.
  { unfold copy_default_config. rewrite Hname, (replace_yaml_suffix stem Hstem).
    reflexivity. }
  split; [|split].
  - unfold dst, path_join. now rewrite copy_name_not_empty.
  - intros e He. rewrite Hrun, bind_emit, He. reflexivity.
  - intros Hok. rewrite Hrun, bind_emit, Hok. reflexivity.
Qed.

End CopyConfig.

(** X10 at work: [default.yaml] is copied to [/work/default_copy.yaml]. *)
Lemma copy_default_config_destination_witness :
  Configs.copy_default_config Demo.world =
  Run [CopyFile "default.yaml" "/work/default_copy.yaml";
       LogInfo (MsgCopied "default.yaml" "/work/default_copy.yaml")]
      (Ok tt).
Proof.
  destruct (copy_default_config_destination Demo.world "default" eq_refl eq_refl)
    as (_ & _ & Hok).
  rewrite Hok; reflexivity.
Defined.

(** * Further properties of the facade *)

Section Registry.

Import Engine.

Variable E : env.

Lemma model_map_keys (t : string) :
  is_Some (MODEL_MAP t) <-> t ∈ ["classify"; "detect"; "segment"].
Proof.
  unfold MODEL_MAP. rewrite !elem_of_cons, elem_of_nil.
  destruct (String.eqb_spec t "classify") as [->|H1]; [split; eauto|].
  destruct (String.eqb_spec t "detect") as [->|H2]; [split; eauto|].
  destruct (String.eqb_spec t "segment") as [->|H3]; [split; eauto|].
  split; [intros [? [=]]|tauto].
Qed.

Lemma guess_ops_unknown (self : YOLO) (t : string) :
  t ∉ ["classify"; "detect"; "segment"] ->
  _guess_ops_from_task E self (VStr t) = raise (KeyError (VStr t)).
Proof.
  intros Ht. unfold _guess_ops_from_task.
  destruct (MODEL_MAP t) as [ops|] eqn:Hmap; [|reflexivity].
  exfalso. apply Ht, model_map_keys. eauto.
Qed.

(** A failure of the class lookup for a registered task comes from the
    evaluation of one of its names. *)
Lemma guess_ops_failure (self : YOLO) (t : string) (e : exn) :
  is_Some (MODEL_MAP t) ->
  result (_guess_ops_from_task E self (VStr t)) = Raise e ->
  exists name, py_eval E name = Raise e.
Proof.
  intros [[[[m tl] vl] pl] Hmap]. unfold _guess_ops_from_task. rewrite Hmap.
  unfold mbind, M_bind, bind. simpl.
  destruct (py_eval E (replace "TYPE" (type self) tl)) eqn:H1; simpl;
    [|intros [= <-]; eauto|discriminate].
  destruct (py_eval E (replace "TYPE" (type self) vl)) eqn:H2; simpl;
    [|intros [= <-]; eauto|discriminate].
  destruct (py_eval E (replace "TYPE" (type self) pl)) eqn:H3; simpl;
    [discriminate|intros [= <-]; eauto|discriminate].
Qed.

(** X12. For every type tag and each of the three tasks, the registry
    evaluates the names [yolo.<type>.<task>.<Class>] of the trainer, the
    validator and the predictor, in that order, and returns what they
    evaluate to beside the model class; the first evaluation that fails ends
    the lookup with its error.  Any other task string, including one that
    differs only by case, is a [KeyError]. *)
Theorem guess_ops_names (self : YOLO) :
  _guess_ops_from_task E self (VStr "classify") =
    (tr ← lift (py_eval E ("yolo." ++ type self ++ ".classify.ClassificationTrainer"));
     v ← lift (py_eval E ("yolo." ++ type self ++ ".classify.ClassificationValidator"));
     p ← lift (py_eval E ("yolo." ++ type self ++ ".classify.ClassificationPredictor"));
     mret ("ClassificationModel", tr, v, p)) /\
  _guess_ops_from_task E self (VStr "detect") =
    (tr ← lift (py_eval E ("yolo." ++ type self ++ ".detect.DetectionTrainer"));
     v ← lift (py_eval E ("yolo." ++ type self ++ ".detect.DetectionValidator"));
     p ← lift (py_eval E ("yolo." ++ type self ++ ".detect.DetectionPredictor"));
     mret ("DetectionModel", tr, v, p)) /\
  _guess_ops_from_task E self (VStr "segment") =
    (tr ← lift (py_eval E ("yolo." ++ type self ++ ".segment.SegmentationTrainer"));
     v ← lift (py_eval E ("yolo." ++ type self ++ ".segment.SegmentationValidator"));
     p ← lift (py_eval E ("yolo." ++ type self ++ ".segment.SegmentationPredictor"));
     mret ("SegmentationModel", tr, v, p)) /\
  (forall t, t ∉ ["classify"; "detect"; "segment"] ->
             _guess_ops_from_task E self (VStr t) = raise (KeyError (VStr t))).
Proof.
  repeat split; try reflexivity.
  intros t Ht. now apply guess_ops_unknown.
Qed.

Lemma guess_task_in_keys (head t : string) :
  _guess_task_from_head head = Ok t -> t ∈ ["classify"; "detect"; "segment"].
Proof.
  unfold _guess_task_from_head. intros H.
  destruct (bool_decide (lower head ∈ segment_heads));
    [injection H as <-; by_computation|].
  destruct (bool_decide (lower head ∈ detect_heads));
    [injection H as <-; by_computation|].
  destruct (bool_decide (lower head ∈ classify_heads));
    [injection H as <-; by_computation|discriminate].
Qed.

(** X13. Whatever task [_guess_task_from_head] infers is a key of the
    registry: the class lookup that follows never fails for a missing key,
    and when it fails it is because the evaluation of a class name did. *)
Theorem guessed_task_is_registered (self : YOLO) (head t : string) :
  _guess_task_from_head head = Ok t ->
  t ∈ ["classify"; "detect"; "segment"] /\
  is_Some (MODEL_MAP t) /\
  (forall e, result (_guess_ops_from_task E self (VStr t)) = Raise e ->
             exists name, py_eval E name = Raise e).
Proof.
  intros H. pose proof (guess_task_in_keys head t H) as Ht.
  pose proof (proj2 (model_map_keys t) Ht) as Hmap.
  repeat split; [exact Ht|exact Hmap|].
  intros e. now apply guess_ops_failure.
Qed.

End Registry.

(** X12 at work: the type tag [v5], which the package lacks, makes the
    detect lookup fail in the first evaluation. *)
Lemma guess_ops_names_witness :
  Engine._guess_ops_from_task Demo.world (Engine.init "v5") (VStr "detect") =
  raise (AttributeError "yolo.v5.detect.DetectionTrainer").
Proof.
  destruct (guess_ops_names Demo.world (Engine.init "v5")) as (_ & Hdetect & _).
  rewrite Hdetect. reflexivity.
Defined.

(** X13 at work: the head [Detect] gives the registered task "detect". *)
Lemma guessed_task_is_registered_witness :
  "detect" ∈ ["classify"; "detect"; "segment"] /\
  is_Some (Engine.MODEL_MAP "detect").
Proof.
  destruct (guessed_task_is_registered Demo.world (Engine.init "v8") "Detect" "detect"
              eq_refl) as (Hkey & Hmap & _).
  split; assumption.
Defined.

Section Binding.

Import Engine.

Variable E : env.

Lemma bind_ok_inv {A B} (m : M A) (k : A -> M B) (b : B) :
  result (m ≫= k) = Ok b ->
  exists a, result m = Ok a /\ result (k a) = Ok b.
Proof.
  unfold mbind, M_bind, bind.
  destruct (result m) as [a| |]; simpl; [eauto|discriminate..].
Qed.

(** X14. [load] takes the task from the checkpoint as it is recorded.  When
    the classes of that task resolve, the facade ends up with the loaded
    weights as model, the checkpoint kept, that task and those classes; when
    the recorded string is not one of the registry's keys (for instance
    because of its case) [load] fails with [KeyError]. *)
Theorem load_binds_checkpoint (self : YOLO) (weights t : string) (c : checkpoint) :
  torch_load E (Some weights) = Ok c ->
  train_args c !! "task" = Some (VStr t) ->
  (forall ops,
     result (_guess_ops_from_task E self (VStr t)) = Ok ops ->
     exists self',
       result (load E self weights) = Ok self' /\
       model self' = Some (Loaded weights) /\ ckpt self' = Some c /\
       task self' = VStr t /\ trainer self' = trainer self /\ type self' = type self /\
       (ModelClass self', TrainerClass self', ValidatorClass self', PredictorClass self') =
       (Some ops.1.1.1, Some ops.1.1.2, Some ops.1.2, Some ops.2)) /\
  (t ∉ ["classify"; "detect"; "segment"] ->
   result (load E self weights) = Raise (KeyError (VStr t))).
Proof.
  intros Hload Htask. unfold load.
  rewrite bind_emit, Hload, bind_lift_ok. cbn [result].
  unfold ckpt_task. rewrite Htask, bind_ret. split.
  - intros [[[m tr] v] p] Hops. apply guess_ops_run in Hops.
    rewrite Hops. change (Run [] (Ok (m, tr, v, p))) with (mret (M := M) (m, tr, v, p)).
    rewrite bind_ret. simpl. eexists. repeat split; reflexivity.
  - intros Ht. now rewrite (guess_ops_unknown E self t Ht).
Qed.

(** X16. A task argument that is no registry key, even after lower-casing,
    makes [resume] raise the unrecognised-task exception before anything
    else happens: no checkpoint is read and no trainer is built. *)
Theorem resume_unrecognised_task (self : YOLO) (t : string) (model : option string) :
  t <> "" -> lower t ∉ ["classify"; "detect"; "segment"] ->
  resume E self (Some t) model = raise (unrecognised_task t).
Proof.
  intros Hne Ht. unfold resume.
  assert (given (Some t) = true) as -> by (destruct t; [done|reflexivity]).
  cbn [default]. rewrite bool_decide_eq_false_2; [reflexivity|].
  intros Hmap. now apply Ht, model_map_keys.
Qed.

(** X17. [resume] replaces the four classes and the trainer and nothing
    else: after it returns, the facade's model, checkpoint, task and type
    are what they were, so a facade without a model is still without one. *)
Theorem resume_keeps_binding (self self' : YOLO) (task' model' : option string) :
  result (resume E self task' model') = Ok self' ->
  model self' = model self /\ ckpt self' = ckpt self /\
  task self' = task self /\ type self' = type self /\
  is_Some (trainer self').
Proof.
  unfold resume. intros H.
  apply bind_ok_inv in H as (tv & _ & H).
  apply bind_ok_inv in H as (lowered & _ & H).
  apply bind_ok_inv in H as ([[[m tr] v] p] & _ & H).
  cbn [set_ops] in H.
  apply bind_ok_inv in H as (cls & _ & H).
  apply bind_ok_inv in H as ([] & _ & H).
  apply bind_ok_inv in H as ([] & _ & H).
  injection H as <-. simpl. repeat split; eauto.
Qed.

End Binding.

(** X14 at work: a checkpoint recording "Detect" is refused by [load], one
    recording "detect" is bound. *)
Lemma load_binds_checkpoint_witness :
  result (Engine.load (Demo.world_recording "Detect") (Engine.init "v8") "best.pt") =
    Raise (KeyError (VStr "Detect")) /\
  exists self',
    result (Engine.load (Demo.world_recording "detect") (Engine.init "v8") "best.pt") =
      Ok self' /\
    Engine.model self' = Some (Loaded "best.pt") /\ Engine.task self' = VStr "detect".
Proof.
  split.
  - destruct (load_binds_checkpoint (Demo.world_recording "Detect") (Engine.init "v8")
                "best.pt" "Detect" (Checkpoint {[ "task" := VStr "Detect" ]})
                eq_refl) as [_ Hbad]; [vm_refl|].
    apply Hbad. by_computation.
  - destruct (load_binds_checkpoint (Demo.world_recording "detect") (Engine.init "v8")
                "best.pt" "detect" (Checkpoint {[ "task" := VStr "detect" ]})
                eq_refl) as [Hgood _]; [vm_refl|].
    destruct (Hgood ("DetectionModel", "yolo.v8.detect.DetectionTrainer",
                     "yolo.v8.detect.DetectionValidator",
                     "yolo.v8.detect.DetectionPredictor"))
      as (self' & Hres & Hmodel & _ & Htask & _); [vm_refl|].
    exists self'. auto.
Defined.

(** X16 at work: [resume(task="pose")] is refused at once. *)
Lemma resume_unrecognised_task_witness :
  Engine.resume Demo.world (Engine.init "v8") (Some "pose") (Some "last.pt") =
  raise (Engine.unrecognised_task "pose").
Proof.
  apply (resume_unrecognised_task Demo.world (Engine.init "v8") "pose" (Some "last.pt"));
    [discriminate|by_computation].
Defined.

(** X17 at work: resuming on a fresh facade leaves it without a model. *)
Lemma resume_keeps_binding_witness :
  exists self',
    result (Engine.resume Demo.world (Engine.init "v8") None (Some "last.pt")) = Ok self' /\
    Engine.model self' = None.
Proof.
  assert (exists self',
            result (Engine.resume Demo.world (Engine.init "v8") None (Some "last.pt")) =
            Ok self') as [self' Hres] by (vm_compute; eauto).
  exists self'. split; [exact Hres|].
  destruct (resume_keeps_binding Demo.world (Engine.init "v8") self' None (Some "last.pt") Hres)
    as [Hmodel _].
  exact Hmodel.
Defined.

(** X26 at work: [resume(task="Detect", model="last.pt")] starts a detect
    trainer on [last.pt]; with the type tag [v5] the call fails in the
    class lookup. *)
Lemma resume_task_argument_first_witness :
  trace (Engine.resume Demo.world (Engine.init "v8") (Some "Detect") (Some "last.pt")) =
    [NewTrainer "yolo.v8.detect.DetectionTrainer"
       (resume_overrides "detect" (Some "last.pt"));
     TrainerTrain "yolo.v8.detect.DetectionTrainer"] /\
  Engine.resume Demo.world (Engine.init "v5") (Some "Detect") (Some "last.pt") =
    raise (AttributeError "yolo.v5.detect.DetectionTrainer").
Proof.
  split.
  - destruct (resume_task_argument_first Demo.world (Engine.init "v8")
                (Some "Detect") (Some "last.pt") "Detect" eq_refl) as [Hok _];
      [discriminate|].
    apply (Hok ("DetectionModel", "yolo.v8.detect.DetectionTrainer",
                "yolo.v8.detect.DetectionValidator",
                "yolo.v8.detect.DetectionPredictor")).
    vm_refl.
  - destruct (resume_task_argument_first Demo.world (Engine.init "v5")
                (Some "Detect") (Some "last.pt") "Detect" eq_refl) as [_ Hfail];
      [discriminate|].
    apply Hfail; [vm_compute; eauto|vm_refl].
Defined.

(** ** Training *)

Section Training.

Import Engine.

Variable E : env.

Lemma train_overrides_forced (self : YOLO) (kwargs ov : dict) :
  result (train_overrides E self kwargs) = Ok ov ->
  ov !! "mode" = Some (VStr "train") /\ ov !! "task" = Some (task self).
Proof.
  unfold train_overrides. intros H.
  apply bind_ok_inv in H as (base & _ & H). injection H as <-.
  now rewrite lookup_insert_eq, lookup_insert_ne, lookup_insert_eq.
Qed.

Lemma train_overrides_only_logs (self : YOLO) (kwargs : dict) (e : event) :
  e ∈ trace (train_overrides E self kwargs) -> exists m, e = LogInfo m.
Proof.
  unfold train_overrides.
  destruct (truthy (dict_get kwargs "cfg")).
  - unfold mbind, M_bind, bind. simpl.
    destruct (check_yaml E _) as [path| |]; simpl;
      [destruct (yaml_load E path) as [doc| |]; simpl|..];
      rewrite ?list_elem_of_singleton, ?elem_of_cons, ?elem_of_nil;
      intros H; repeat (destruct H as [H|H]); subst; eauto; contradiction.
  - rewrite bind_ret. simpl. intros H. now apply elem_of_nil in H.
Qed.

(** X18. Whatever the keyword arguments or the [cfg] document say, every
    trainer [train] builds is given [mode] "train", the facade's own task,
    and a [data] value that counts as true. *)
Theorem train_forces_task_and_mode (self : YOLO) (kwargs ov : dict) (cls : string) :
  NewTrainer cls ov ∈ trace (train E self kwargs) ->
  ov !! "mode" = Some (VStr "train") /\ ov !! "task" = Some (task self) /\
  truthy (dict_get ov "data") = true /\ TrainerClass self = Some cls.
Proof.
  unfold train.
  destruct (negb _ && negb _); [intros H; now apply elem_of_nil in H|].
  pose proof (train_overrides_forced self kwargs) as Hforced.
  pose proof (train_overrides_only_logs self kwargs (NewTrainer cls ov)) as Hlogs.
  unfold mbind, M_bind, bind.
  destruct (train_overrides E self kwargs) as [tr [ov0| |]]; simpl in *;
    try (intros H; destruct (Hlogs H) as [m Hm]; discriminate).
  destruct (truthy (dict_get ov0 "data")) eqn:Hdata; simpl;
    [|rewrite app_nil_r; intros H; destruct (Hlogs H) as [m Hm]; discriminate].
  intros H. apply elem_of_app in H as [H|H];
    [destruct (Hlogs H) as [m Hm]; discriminate|].
  destruct (TrainerClass self) as [c|]; simpl in H; [|now apply elem_of_nil in H].
  destruct (Hforced ov0 eq_refl) as [Hmode Htask].
  destruct (ckpt self); simpl in H;
    rewrite !elem_of_cons, elem_of_nil in H;
    repeat (destruct H as [H|H]); try discriminate; try contradiction;
    injection H as -> ->; auto.
Qed.

(** X19. Once a true [cfg] is passed, the other keyword arguments play no
    part: two calls that agree on [cfg] behave alike. *)
Theorem train_cfg_ignores_other_kwargs (self : YOLO) (kwargs kwargs' : dict) :
  truthy (dict_get kwargs "cfg") = true ->
  dict_get kwargs' "cfg" = dict_get kwargs "cfg" ->
  train E self kwargs' = train E self kwargs.
Proof.
  intros Hcfg Heq. unfold train, train_overrides.
  now rewrite Heq, Hcfg.
Qed.

(** X20. When [train] returns, the facade holds a trainer whose model comes
    from the checkpoint if one is bound, and is the facade's own model only
    otherwise; model, checkpoint, task and classes are as before. *)
Theorem train_weights_source (self self' : YOLO) (kwargs : dict) :
  result (train E self kwargs) = Ok self' ->
  exists cls ov,
    TrainerClass self = Some cls /\
    trainer self' =
      Some (Trainer cls ov
              (Some match ckpt self with
                    | Some c => FromCheckpoint c
                    | None => FromFacade (model self)
                    end)) /\
    model self' = model self /\ ckpt self' = ckpt self /\ task self' = task self.
Proof.
  unfold train.
  destruct (negb _ && negb _); [discriminate|]. intros H.
  apply bind_ok_inv in H as (ov & _ & H).
  destruct (truthy (dict_get ov "data")); simpl in H; [|discriminate].
  apply bind_ok_inv in H as (cls & Hcls & H).
  apply bind_ok_inv in H as ([] & _ & H).
  apply bind_ok_inv in H as (net & Hnet & H).
  apply bind_ok_inv in H as ([] & _ & H).
  injection H as <-.
  exists cls, ov. simpl.
  destruct (TrainerClass self) as [c|]; [|discriminate]. injection Hcls as ->.
  destruct (ckpt self) as [c0|]; simpl in Hnet; injection Hnet as <-;
    repeat split; reflexivity.
Qed.

End Training.

(** X18 at work: [task] and [mode] passed to [train] are overruled. *)
Lemma train_forces_task_and_mode_witness :
  let kwargs : dict :=
    <["task" := VStr "detect"]>
      (<["mode" := VStr "val"]> {[ "data" := VStr "coco128.yaml" ]}) in
  let ov : dict :=
    <["mode" := VStr "train"]> (<["task" := VStr "segment"]> kwargs) in
  ov !! "mode" = Some (VStr "train") /\ ov !! "task" = Some (VStr "segment") /\
  truthy (dict_get ov "data") = true /\
  Engine.TrainerClass Demo.loaded = Some "yolo.v8.segment.SegmentationTrainer".
Proof.
  intros kwargs ov.
  apply (train_forces_task_and_mode Demo.world Demo.loaded kwargs ov
           "yolo.v8.segment.SegmentationTrainer").
  assert (trace (Engine.train Demo.world Demo.loaded kwargs) =
          [NewTrainer "yolo.v8.segment.SegmentationTrainer" ov;
           TrainerLoadModel "yolo.v8.segment.SegmentationTrainer";
           TrainerTrain "yolo.v8.segment.SegmentationTrainer"]) as -> by vm_refl.
  apply elem_of_cons. now left.
Defined.

(** X19 at work: with [cfg=custom.yaml], an extra [epochs] changes nothing. *)
Lemma train_cfg_ignores_other_kwargs_witness :
  Engine.train Demo.world Demo.loaded
    (<["epochs" := VInt 500]> {[ "cfg" := VStr "custom.yaml" ]}) =
  Engine.train Demo.world Demo.loaded {[ "cfg" := VStr "custom.yaml" ]}.
Proof.
  apply (train_cfg_ignores_other_kwargs Demo.world Demo.loaded); vm_refl.
Defined.

(** X20 at work: after [load], training starts from the checkpoint. *)
Lemma train_weights_source_witness :
  exists self' cls ov,
    result (Engine.train Demo.world Demo.loaded {[ "data" := VStr "coco128.yaml" ]}) =
      Ok self' /\
    Engine.trainer self' =
      Some (Trainer cls ov (Some (FromCheckpoint Demo.segment_ckpt))).
Proof.
  assert (exists self',
            result (Engine.train Demo.world Demo.loaded {[ "data" := VStr "coco128.yaml" ]}) =
            Ok self') as [self' Hres] by (vm_compute; eauto).
  destruct (train_weights_source Demo.world Demo.loaded self' _ Hres)
    as (cls & ov & _ & Htrainer & _).
  exists self', cls, ov. split; [exact Hres|exact Htrainer].
Defined.

(** ** Building, validating and predicting *)

Section Building.

Import Engine Inference.

Variable E : env.

(** X21. When [new] returns, the facade is bound to what was loaded: the
    definition is the document read from the checked path, the task is the
    one inferred from the next-to-last field of the last entry of its
    [head], the classes are those of that task, and the model is that task's
    model class built from that very definition; type, checkpoint and trainer
    are untouched. *)
Theorem new_binds_model (self self' : YOLO) (path : string) :
  result (new E self path) = Ok self' ->
  exists p cfg head layer h t ops,
    check_yaml E (VStr path) = Ok p /\ load_model_yaml E p = Ok cfg /\
    result (item cfg "head") = Ok head /\
    result (item_from_end head 1) = Ok layer /\
    result (item_from_end layer 2) = Ok (VStr h) /\
    _guess_task_from_head h = Ok t /\
    result (_guess_ops_from_task E self (VStr t)) = Ok ops /\
    self' = Facade (type self) (Some ops.1.1.1) (Some ops.1.1.2) (Some ops.1.2)
              (Some ops.2) (Some (Built ops.1.1.1 cfg)) (trainer self) (VStr t)
              (ckpt self).
Proof.
  unfold new. intros H.
  apply bind_ok_inv in H as (p & Hp & H).
  apply bind_ok_inv in H as (cfg & Hcfg & H).
  apply bind_ok_inv in H as (head & Hhead & H).
  apply bind_ok_inv in H as (layer & Hlayer & H).
  apply bind_ok_inv in H as (name & Hname & H).
  apply bind_ok_inv in H as (t & Ht & H).
  apply bind_ok_inv in H as (ops & Hops & H).
  destruct name as [| | | |h| |]; try discriminate.
  destruct ops as [[[m tr] v] pr]. injection H as <-.
  exists p, cfg, head, layer, h, t, (m, tr, v, pr).
  repeat split; assumption.
Qed.

(** X23. [info], [fuse], [predict] and the call operator only warn about a
    missing model: the line "model not initialized!" is logged and the call
    goes on to use the absent model, failing with [AttributeError] (or
    [TypeError] for the call).  With a model bound they log nothing and make
    the one model call. *)
Theorem unbound_calls_warn_then_fail (self : YOLO) (verbose : bool) (imgs : value) :
  (model self = None ->
   info self verbose = Run [LogInfo MsgNotInitialized] (Raise (AttributeError "info")) /\
   fuse self = Run [LogInfo MsgNotInitialized] (Raise (AttributeError "fuse")) /\
   predict self imgs = Run [LogInfo MsgNotInitialized] (Raise TypeError) /\
   __call__ self imgs = Run [LogInfo MsgNotInitialized] (Raise TypeError)) /\
  (forall net, model self = Some net ->
   info self verbose = emit (ModelCall net "info" (VBool verbose)) /\
   fuse self = emit (ModelCall net "fuse" VNone) /\
   predict self imgs = emit (ModelCall net "__call__" imgs) /\
   __call__ self imgs = emit (ModelCall net "__call__" imgs)).
Proof.
  unfold predict, info, fuse, __call__, warn_unbound, model_method.
  split.
  - intros ->. repeat split; reflexivity.
  - intros net ->. repeat split; reflexivity.
Qed.

Section Predictor.

Variable img_size_of : string -> dict -> outcome img_size.

Lemma expand_img_size_pair (sz : img_size) (size : list value) :
  result (expand_img_size sz) = Ok size ->
  trace (expand_img_size sz) = [] /\
  match sz with
  | Size n => size = [VInt n; VInt n]
  | Sizes [x] => size = [x; x]
  | Sizes (x :: y :: _) => size = [x; y]
  | Sizes [] => False
  end.
Proof.
  destruct sz as [n|[|x [|y xs]]]; simpl; try discriminate;
    intros [= <-]; split; reflexivity.
Qed.

Lemma expand_img_size_silent (sz : img_size) : trace (expand_img_size sz) = [].
Proof. destruct sz as [n|[|x [|y xs]]]; reflexivity. Qed.

(** X24. Whatever size the predictor resolved, what [visualize_preds] hands
    to [setup] is a pair: [n, n] for an integer [n], [x, x] for the
    one-element list [x], and the first two entries of a longer list.  The
    model is passed on as it is, bound or not, and the source is the
    [source] keyword argument. *)
Theorem visualize_preds_size_is_pair
    (self : YOLO) (kwargs : dict) (cls : string) (size : list value)
    (m : option net) (source : value) :
  SetupPredictor cls size m source ∈ trace (visualize_preds img_size_of self kwargs) ->
  PredictorClass self = Some cls /\ m = model self /\
  kwargs !! "source" = Some source /\
  exists sz, img_size_of cls kwargs = Ok sz /\
    match sz with
    | Size n => size = [VInt n; VInt n]
    | Sizes [x] => size = [x; x]
    | Sizes (x :: y :: _) => size = [x; y]
    | Sizes [] => False
    end.
Proof.
  unfold visualize_preds, the_class.
  destruct (PredictorClass self) as [c|];
    [|rewrite bind_raise; intros H; now apply elem_of_nil in H].
  rewrite bind_ret, bind_emit. cbn [trace].
  intros H. apply elem_of_cons in H as [H|H]; [discriminate|].
  destruct (img_size_of c kwargs) as [sz| |] eqn:Hsz;
    [|simpl in H; now apply elem_of_nil in H..].
  rewrite bind_lift_ok in H.
  pose proof (expand_img_size_pair sz) as Hpair.
  pose proof (expand_img_size_silent sz) as Hsilent.
  unfold mbind, M_bind, bind in H.
  destruct (expand_img_size sz) as [te [sz2| |]]; simpl in *; subst te;
    try (now apply elem_of_nil in H).
  destruct (Hpair sz2 eq_refl) as [_ Hshape].
  destruct (kwargs !! "source") as [src|]; simpl in H;
    [|now apply elem_of_nil in H].
  rewrite !elem_of_cons, elem_of_nil in H.
  destruct H as [H|[H|[]]]; [|discriminate].
  injection H as -> -> -> ->. repeat split. exists sz. auto.
Qed.

(** X25. A call without [source] fails with [KeyError] only after the
    predictor has been built from the keyword arguments and its size
    resolved: that side effect has happened when the error is raised. *)
Theorem visualize_preds_missing_source
    (self : YOLO) (kwargs : dict) (cls : string) (sz : img_size) (size : list value) :
  PredictorClass self = Some cls ->
  img_size_of cls kwargs = Ok sz ->
  result (expand_img_size sz) = Ok size ->
  kwargs !! "source" = None ->
  visualize_preds img_size_of self kwargs =
  Run [NewPredictor cls kwargs] (Raise (KeyError (VStr "source"))).
Proof.
  intros Hcls Hsz Hsize Hsrc. unfold visualize_preds, the_class.
  rewrite Hcls, bind_ret, bind_emit, Hsz, bind_lift_ok.
  destruct (expand_img_size_pair sz size Hsize) as [Htr _].
  unfold mbind, M_bind, bind.
  destruct (expand_img_size sz) as [te [sz2| |]]; simpl in *; try discriminate.
  subst te. now rewrite Hsrc.
Qed.

End Predictor.

End Building.

(** X21 at work: a definition whose last head layer is [Detect] binds a
    detection model built from that definition. *)
Lemma new_binds_model_witness :
  exists self',
    result (Engine.new Demo.world_defining (Engine.init "v8") "yolov8n.yaml") = Ok self' /\
    Engine.task self' = VStr "detect" /\
    Engine.model self' = Some (Built "DetectionModel" Demo.detect_yaml).
Proof.
  assert (exists self',
            result (Engine.new Demo.world_defining (Engine.init "v8") "yolov8n.yaml") =
            Ok self') as [self' Hres] by (vm_compute; eauto).
  destruct (new_binds_model Demo.world_defining (Engine.init "v8") self' "yolov8n.yaml" Hres)
    as (p & cfg & head & layer & h & t & ops & Hp & Hcfg & Hhead & Hlayer & Hh & Ht & Hops & ->).
  injection Hp as <-. injection Hcfg as <-.
  vm_compute in Hhead. injection Hhead as <-.
  vm_compute in Hlayer. injection Hlayer as <-.
  vm_compute in Hh. injection Hh as <-.
  vm_compute in Ht. injection Ht as <-.
  vm_compute in Hops. injection Hops as <-.
  eexists. split; [exact Hres|]. split; reflexivity.
Defined.

(** X23 at work: [info] on a fresh facade warns and then fails. *)
Lemma unbound_calls_warn_then_fail_witness :
  Inference.info (Engine.init "v8") true =
    Run [LogInfo MsgNotInitialized] (Raise (AttributeError "info")) /\
  Inference.predict Demo.loaded (VStr "bus.jpg") =
    emit (ModelCall (Loaded "last.pt") "__call__" (VStr "bus.jpg")).
Proof.
  split.
  - destruct (unbound_calls_warn_then_fail (Engine.init "v8") true VNone) as [Hnone _].
    now apply Hnone.
  - destruct (unbound_calls_warn_then_fail Demo.loaded true (VStr "bus.jpg")) as [_ Hsome].
    now apply (Hsome (Loaded "last.pt")).
Defined.

(** X24 at work: the one-element size [[320]] becomes [[320, 320]], on a
    facade that has no model. *)
Lemma visualize_preds_size_is_pair_witness :
  let self := Engine.set_ops (Engine.init "v8")
                ("DetectionModel", "yolo.v8.detect.DetectionTrainer",
                 "yolo.v8.detect.DetectionValidator",
                 "yolo.v8.detect.DetectionPredictor") in
  let kwargs : dict :=
    <["img_size" := VSeq [VInt 320]]> {[ "source" := VStr "bus.jpg" ]} in
  Engine.PredictorClass self = Some "yolo.v8.detect.DetectionPredictor" /\
  None = Engine.model self /\
  kwargs !! "source" = Some (VStr "bus.jpg") /\
  exists sz, Demo.img_sizes "yolo.v8.detect.DetectionPredictor" kwargs = Ok sz /\
    match sz with
    | Inference.Size n => [VInt 320; VInt 320] = [VInt n; VInt n]
    | Inference.Sizes [x] => [VInt 320; VInt 320] = [x; x]
    | Inference.Sizes (x :: y :: _) => [VInt 320; VInt 320] = [x; y]
    | Inference.Sizes [] => False
    end.
Proof.
  intros self kwargs.
  apply (visualize_preds_size_is_pair Demo.img_sizes self kwargs).
  assert (trace (Inference.visualize_preds Demo.img_sizes self kwargs) =
          [NewPredictor "yolo.v8.detect.DetectionPredictor" kwargs;
           SetupPredictor "yolo.v8.detect.DetectionPredictor" [VInt 320; VInt 320]
             None (VStr "bus.jpg");
           RunPredictor "yolo.v8.detect.DetectionPredictor"]) as -> by vm_refl.
  apply elem_of_cons. right. apply elem_of_cons. now left.
Defined.

(** X25 at work: without [source] the predictor is built and then the call
    fails. *)
Lemma visualize_preds_missing_source_witness :
  Inference.visualize_preds Demo.img_sizes Demo.loaded ∅ =
  Run [NewPredictor "yolo.v8.segment.SegmentationPredictor" ∅]
      (Raise (KeyError (VStr "source"))).
Proof.
  apply (visualize_preds_missing_source Demo.img_sizes Demo.loaded ∅
           "yolo.v8.segment.SegmentationPredictor" (Inference.Size 640)
           [VInt 640; VInt 640]); reflexivity.
Defined.
